(** * teams-vid: the upload and gallery handlers of [webapp/app.py]

    A shallow embedding of [add_file_and_metadata_to_blob_storage] and
    [gallery], the two handlers that talk to the blob container, together
    with the Python and SDK operations they call.

    A Python [str] is modelled by the string of its code points; the model
    covers the code points below 256 (one [ascii] per code point).  Python
    [bytes] are [list byte]; a [dict] from [str] to [str] is a
    [gmap string string]. *)

From Stdlib Require Import NArith Ascii String Lia.
From Stdlib.Strings Require Import Byte.
From stdpp Require Import base option gmap strings list fin_maps.

Local Open Scope N_scope.

(** ** Python's [str] methods used by the handlers *)

Module PyStr.

(** [c.lower()] on one code point below 256: the letters [A-Z] and the
    Latin-1 capitals [U+00C0 .. U+00DE] (but not the sign [U+00D7]) move
    up by 32; every other code point is its own lower case. *)
Definition lower_char (c : ascii) : ascii :=
  let n := N_of_ascii c in
  if (65 <=? n) && (n <=? 90) || (192 <=? n) && (n <=? 222) && negb (n =? 215)
  then ascii_of_N (n + 32)
  else c.

(** [s.lower()] *)
Fixpoint lower (s : string) : string :=
  match s with
  | EmptyString => EmptyString
  | String c s' => String (lower_char c) (lower s')
  end.

(** [s.split(sep)] for a separator of one character: the maximal
    separator-free pieces of [s], in order; never the empty list. *)
Fixpoint split (sep : ascii) (s : string) : list string :=
  match s with
  | EmptyString => [EmptyString]
  | String c s' =>
      if Ascii.eqb c sep then EmptyString :: split sep s'
      else match split sep s' with
           | [] => [String c EmptyString]
           | piece :: pieces => String c piece :: pieces
           end
  end.

(** [sep in s] *)
Fixpoint contains (sep : ascii) (s : string) : bool :=
  match s with
  | EmptyString => false
  | String c s' => Ascii.eqb c sep || contains sep s'
  end.

(** [c.isspace()] on one code point below 256: the controls [U+0009 ..
    U+000D] and [U+001C .. U+001F], the space, [U+0085] and [U+00A0]. *)
Definition is_space (c : ascii) : bool :=
  let n := N_of_ascii c in
  (9 <=? n) && (n <=? 13) || (28 <=? n) && (n <=? 32) || (n =? 133) || (n =? 160).

(** [s.lstrip()] *)
Fixpoint lstrip (s : string) : string :=
  match s with
  | EmptyString => EmptyString
  | String c s' => if is_space c then lstrip s' else s
  end.

(** [s.rstrip()] *)
Fixpoint rstrip (s : string) : string :=
  match s with
  | EmptyString => EmptyString
  | String c s' =>
      match rstrip s' with
      | EmptyString => if is_space c then EmptyString else String c EmptyString
      | kept => String c kept
      end
  end.

(** [s.strip()] *)
Definition strip (s : string) : string := rstrip (lstrip s).

End PyStr.

(** ** Python's [uuid] module: [uuid4] and [str] of a [UUID]

    After [Lib/uuid.py] of CPython. *)

Module PyUUID.

(** [UUID(bytes=b, version=4).int] where [rand] is [int.from_bytes(b)] for
    the 16 bytes [b] of [os.urandom(16)]. *)
Definition UUID_version4 (rand : N) : N :=
  let int := rand mod 2 ^ 128 in
  (* Set the variant to RFC 4122. *)
  let int := N.ldiff int (N.shiftl 0xc000 48) in
  let int := N.lor int (N.shiftl 0x8000 48) in
  (* Set the version number. *)
  let int := N.ldiff int (N.shiftl 0xf000 64) in
  N.lor int (N.shiftl 4 76).

(** One digit of ['%x']. *)
Definition hex_digit (d : N) : ascii :=
  if d <? 10 then ascii_of_N (48 + d) else ascii_of_N (87 + d).

(** ['%0<width>x' % n], for [n] below [16 ^ width], in front of [acc]. *)
Fixpoint format_x (width : nat) (n : N) (acc : string) : string :=
  match width with
  | O => acc
  | S w => format_x w (N.shiftr n 4) (String (hex_digit (N.land n 15)) acc)
  end.

(** [UUID.__str__]: [hex[:8]-hex[8:12]-hex[12:16]-hex[16:20]-hex[20:]]. *)
Definition str (int : N) : string :=
  let hex := format_x 32 int EmptyString in
  substring 0 8 hex +:+ "-" +:+ substring 8 4 hex +:+ "-" +:+
  substring 12 4 hex +:+ "-" +:+ substring 16 4 hex +:+ "-" +:+
  substring 20 12 hex.

(** The textual form of a version 4 UUID:
    [[0-9a-f]{8}-[0-9a-f]{4}-4[0-9a-f]{3}-[89ab][0-9a-f]{3}-[0-9a-f]{12}]. *)
Inductive pat := Hex | Dash | Four | Variant.

Definition is_hex (c : ascii) : bool :=
  let n := N_of_ascii c in
  (48 <=? n) && (n <=? 57) || (97 <=? n) && (n <=? 102).

Definition pat_ok (p : pat) (c : ascii) : bool :=
  match p with
  | Hex => is_hex c
  | Dash => Ascii.eqb c "-"
  | Four => Ascii.eqb c "4"
  | Variant => let n := N_of_ascii c in (n =? 56) || (n =? 57) || (n =? 97) || (n =? 98)
  end.

Fixpoint matches (ps : list pat) (s : string) : bool :=
  match ps, s with
  | [], EmptyString => true
  | p :: ps', String c s' => pat_ok p c && matches ps' s'
  | _, _ => false
  end.

Definition uuid4_pattern : list pat :=
  replicate 8 Hex ++ [Dash] ++ replicate 4 Hex ++ [Dash] ++
  [Four] ++ replicate 3 Hex ++ [Dash] ++
  [Variant] ++ replicate 3 Hex ++ [Dash] ++ replicate 12 Hex.

Definition is_uuid4 (s : string) : bool := matches uuid4_pattern s.

End PyUUID.

(** ** The world the handlers run in *)

(** The exceptions that can reach a handler's caller: Python's own
    [IndexError], [KeyError] and [ValueError], and those of the storage SDK
    ([azure.core.exceptions]). *)
Inductive exn :=
| IndexError
| KeyError (key : string)
| ValueError
| ResourceExistsError (blob_name : string)
| HttpResponseError (status_code : N)
| ServiceRequestError (message : string).

(** One blob of the container: its bytes, its metadata and the content type
    of its content settings. *)
Record Blob := {
  data : list byte;
  metadata : gmap string string;
  content_type : string
}.

(** The requests the SDK sends to the storage service. *)
Inductive StoreRequest :=
| PutBlob (blob_name : string) (b : Blob)
| ListBlobs.

(** The storage account's video container (the environment variables that
    name it are taken to be set), the SDK clients that are open, the log of
    the requests sent so far (latest first), and the two sources of
    nondeterminism: the fault, if any, that the n-th request meets, and the
    successive values of [os.urandom(16)] read as big-endian integers. *)
Record World := {
  blobs : gmap string Blob;
  open_clients : gset nat;
  next_client : nat;
  requests : list StoreRequest;
  outage : nat → option exn;
  urandom : nat → N;
  draws : nat
}.

Definition set_blobs (bs : gmap string Blob) (w : World) : World :=
  {| blobs := bs; open_clients := open_clients w; next_client := next_client w;
     requests := requests w; outage := outage w; urandom := urandom w;
     draws := draws w |}.

Definition set_clients (cs : gset nat) (next : nat) (w : World) : World :=
  {| blobs := blobs w; open_clients := cs; next_client := next;
     requests := requests w; outage := outage w; urandom := urandom w;
     draws := draws w |}.

Definition set_requests (rs : list StoreRequest) (w : World) : World :=
  {| blobs := blobs w; open_clients := open_clients w; next_client := next_client w;
     requests := rs; outage := outage w; urandom := urandom w;
     draws := draws w |}.

Definition set_draws (n : nat) (w : World) : World :=
  {| blobs := blobs w; open_clients := open_clients w; next_client := next_client w;
     requests := requests w; outage := outage w; urandom := urandom w;
     draws := n |}.

(** ** Computations that change the world and may raise *)

Definition M (A : Type) : Type := World → World * (exn + A).

Definition raise {A} (e : exn) : M A := λ w, (w, inl e).

#[global] Instance M_ret : MRet M := λ A a w, (w, inr a).

#[global] Instance M_bind : MBind M := λ A B k m w,
  match m w with
  | (w', inl e) => (w', inl e)
  | (w', inr a) => k a w'
  end.

(** ** Python operations *)

(** [l[-1]] *)
Definition subscript_last {A} (l : list A) : M A :=
  match last l with
  | Some x => mret x
  | None => raise IndexError
  end.

(** [d[key]] *)
Definition getitem (d : gmap string string) (key : string) : M string :=
  match d !! key with
  | Some v => mret v
  | None => raise (KeyError key)
  end.

(** [uuid.uuid4()] *)
Definition uuid4 : M N := λ w,
  (set_draws (S (draws w)) w, inr (PyUUID.UUID_version4 (urandom w (draws w)))).

(** ** The storage SDK ([azure.storage.blob.aio])

    The SDK and the service behind it are not part of the repository: the
    operations the handlers call are given their documented behaviour.  A
    client is open from its construction until [close()]. *)

Record BlobClient := { blob_client_id : nat; blob_name : string }.
Record BlobServiceClient := { service_client_id : nat }.
Record ContainerClient := { container_client_id : nat }.

Definition open_client : M nat := λ w,
  (set_clients ({[next_client w]} ∪ open_clients w) (S (next_client w)) w,
   inr (next_client w)).

Definition close_client (h : nat) : M unit := λ w,
  (set_clients (open_clients w ∖ {[h]}) (next_client w) w, inr tt).

(** [BlobClient(account_url=..., credential=..., container_name=..., blob_name=name)] *)
Definition new_BlobClient (name : string) : M BlobClient :=
  h ← open_client; mret {| blob_client_id := h; blob_name := name |}.

(** [BlobServiceClient(account_url=..., credential=...)] *)
Definition new_BlobServiceClient : M BlobServiceClient :=
  h ← open_client; mret {| service_client_id := h |}.

(** [service.get_container_client(name)] *)
Definition get_container_client (service : BlobServiceClient) : M ContainerClient :=
  h ← open_client; mret {| container_client_id := h |}.

(** The answer of the storage service to a write and to a listing: the
    fault the request meets, if any; a blob is created only under a name
    that is free (the SDK uploads with [overwrite=False] unless told
    otherwise). *)
Definition service_put (w : World) (name : string) (b : Blob) : exn + gmap string Blob :=
  match outage w (length (requests w)) with
  | Some e => inl e
  | None =>
      match blobs w !! name with
      | Some _ => inl (ResourceExistsError name)
      | None => inr (<[name := b]> (blobs w))
      end
  end.

Definition service_list (w : World) : exn + list (string * Blob) :=
  match outage w (length (requests w)) with
  | Some e => inl e
  | None => inr (map_to_list (blobs w))
  end.

(** The errors after which the SDK's retry policy sends the request again:
    a failed connection, a time-out (status 408) and the server errors
    (status 500 and above) other than 501 and 505. *)
Definition retryable (e : exn) : bool :=
  match e with
  | ServiceRequestError _ => true
  | HttpResponseError status =>
      (status =? 408) || (500 <=? status) && negb (status =? 501) && negb (status =? 505)
  | _ => false
  end.

(** The SDK's pipeline: a request goes out, and goes out again after a
    retryable error while retries are left; the error that ends it is
    raised.  A failed request leaves the service as it was. *)
Fixpoint send {A : Type} (retries : nat) (request : StoreRequest)
    (service : World → exn + A) (w : World) : World * (exn + A) :=
  let w' := set_requests (request :: requests w) w in
  match service w with
  | inr a => (w', inr a)
  | inl e =>
      if retryable e then
        match retries with
        | O => (w', inl e)
        | S n => send n request service w'
        end
      else (w', inl e)
  end.

(** The retries of the SDK's default policy, [ExponentialRetry]. *)
Definition retry_total : nat := 3.

(** A header value the HTTP client accepts: it holds no carriage return and
    no line feed. *)
Definition header_safe (v : string) : bool :=
  negb (PyStr.contains "013" v || PyStr.contains "010" v).

(** [await blob.upload_blob(data, metadata=..., content_settings=ContentSettings(content_type=...))]:
    the SDK strips each metadata value and sends the values and the content
    type as HTTP headers.  The HTTP client raises [ValueError], before
    anything is sent, when one of them is no acceptable header value;
    otherwise the write goes through the pipeline.  Contents are written in
    one request (they are below the SDK's limit for a single write). *)
Definition upload_blob (blob : BlobClient) (contents : list byte)
    (meta : gmap string string) (ctype : string) : M unit :=
  let headers := PyStr.strip <$> meta in
  let b := {| data := contents; metadata := headers; content_type := ctype |} in
  if forallb (λ kv, header_safe kv.2) (map_to_list headers) && header_safe ctype
  then
    bs ← (send retry_total (PutBlob (blob_name blob) b)
            (λ w, service_put w (blob_name blob) b) : M (gmap string Blob));
    ((λ w, (set_blobs bs w, inr tt)) : M unit)
  else raise ValueError.

(** [container.list_blobs(include=["metadata"])]: the listing is one request
    through the pipeline, answered with every blob of the container and its
    metadata.  The service lists each blob once; the order is the
    enumeration order of the map, and no statement below depends on it. *)
Definition list_blobs (container : ContainerClient) : M (list (string * Blob)) :=
  send retry_total ListBlobs service_list.

(** ** The handlers of [webapp/app.py] *)

(** The dictionary [gallery] builds for one blob. *)
Record GalleryItem := {
  uuid : string;
  image_url : string;
  author : string;
  title : string;
  badge : string
}.

Record TemplateResponse (Req : Type) := {
  template : string;
  context_request : Req;
  context_blobs : list GalleryItem
}.
Arguments template {Req}.
Arguments context_request {Req}.
Arguments context_blobs {Req}.

(** The dictionary literal of the loop body of [gallery]. *)
Definition gallery_item (meta : gmap string string) : M GalleryItem :=
  u ← getitem meta "uuid";
  a ← getitem meta "author";
  t ← getitem meta "title";
  b ← getitem meta "badge";
  mret {| uuid := u;
          image_url := "https://bootsnipp.com/bootstrap-builder/libs/builder/icons/image.svg";
          author := a; title := t; badge := b |}.

(** The [async for] loop of [gallery] over the listed blobs. *)
Fixpoint gallery_loop (listed : list (string * Blob)) (blobs_list : list GalleryItem)
    : M (list GalleryItem) :=
  match listed with
  | [] => mret blobs_list
  | blob :: rest =>
      item ← gallery_item (metadata blob.2);
      gallery_loop rest (blobs_list ++ [item])
  end.

Definition gallery {Req} (request : Req) : M (TemplateResponse Req) :=
  blob_service_client ← new_BlobServiceClient;
  container_client ← get_container_client blob_service_client;
  listed ← list_blobs container_client;
  blobs_list ← gallery_loop listed [];
  close_client (container_client_id container_client);;
  close_client (service_client_id blob_service_client);;
  mret {| template := "gallery.html"; context_request := request;
          context_blobs := blobs_list |}.

(** The metadata [add_file_and_metadata_to_blob_storage] attaches. *)
Definition upload_metadata (file_name file_uuid_str : string) : gmap string string :=
  <["original_file_name" := file_name]>
  (<["uuid" := file_uuid_str]>
  (<["author" := "Dummy User"]>
  (<["title" := "Dummy title"]>
  (<["badge" := "dummy badge"]> ∅)))).

Definition add_file_and_metadata_to_blob_storage
    (file_name : string) (file_contents : list byte) (file_content_type : string)
    : M unit :=
  piece ← subscript_last (PyStr.split "." file_name);
  let extension := PyStr.lower piece in
  u ← uuid4;
  let file_uuid_str := PyUUID.str u in
  let new_filename := file_uuid_str +:+ "." +:+ extension in
  blob ← new_BlobClient new_filename;
  upload_blob blob file_contents (upload_metadata file_name file_uuid_str)
    file_content_type;;
  close_client (blob_client_id blob).

(** ** Notions the statements are written with *)

Module Spec.

(** In the specification's words, "the suffix after the last [.]" of a
    file name: what follows the last occurrence of [sep] in [s], and all
    of [s] when [sep] does not occur in it. *)
Fixpoint suffix_after_last (sep : ascii) (s : string) : string :=
  match s with
  | EmptyString => EmptyString
  | String c s' =>
      if PyStr.contains sep s' then suffix_after_last sep s'
      else if Ascii.eqb c sep then s' else s
  end.

End Spec.

(** The world after [request] has gone out [n] more times. *)
Definition resent (n : nat) (request : StoreRequest) (w : World) : World :=
  set_requests (replicate n request ++ requests w) w.

(** The text of the identifier the next call of [uuid.uuid4()] yields. *)
Definition next_uuid4 (w : World) : string :=
  PyUUID.str (PyUUID.UUID_version4 (urandom w (draws w))).

(** The metadata keys [gallery] reads. *)
Definition display_keys : list string := ["uuid"; "author"; "title"; "badge"].

(** [item] shows the metadata [meta]: its four fields are the values stored
    under the four keys, and its image is the fixed placeholder. *)
Definition projects (meta : gmap string string) (item : GalleryItem) : Prop :=
  meta !! "uuid" = Some (uuid item) ∧
  meta !! "author" = Some (author item) ∧
  meta !! "title" = Some (title item) ∧
  meta !! "badge" = Some (badge item) ∧
  image_url item = "https://bootsnipp.com/bootstrap-builder/libs/builder/icons/image.svg".

(** Sample worlds: an empty container behind a healthy service, the same
    behind a service that answers every request with status 503, and a
    container holding one blob whose metadata has no [title]. *)
Definition entropy (n : nat) : N :=
  0x9f1c2d3e4a5b6c7d8e9fa0b1c2d3e4f5 * N.of_nat (S n) + 0x0123456789abcdef.

Definition healthy : World :=
  {| blobs := ∅; open_clients := ∅; next_client := 0%nat; requests := [];
     outage := λ _, None; urandom := entropy; draws := 0%nat |}.

Definition unavailable : World :=
  {| blobs := ∅; open_clients := ∅; next_client := 0%nat; requests := [];
     outage := λ _, Some (HttpResponseError 503); urandom := entropy; draws := 0%nat |}.


Definition untitled : Blob :=
  {| data := [];
     metadata := <["uuid" := "1"]> (<["author" := "a"]> (<["badge" := "b"]> ∅));
     content_type := "video/webm" |}.

Definition with_untitled : World := set_blobs {["1.webm" := untitled]} healthy.

Definition talk : Blob :=
  {| data := [x00; x01]; metadata := upload_metadata "talk.webm" "7";
     content_type := "video/webm" |}.

Definition with_talk : World := set_blobs {["7.webm" := talk]} healthy.

(** * The rest of [webapp/app.py] *)

(** ** The upload route *)

(** What can reach the caller of a route: the exceptions above, and
    Python's [AttributeError]. *)
Inductive py_exn :=
| Exn (e : exn)
| AttributeError (attribute : string).

(** An uploaded file of a parsed form: its name, its content type and what
    [read()] returns. *)
Record UploadFile := {
  filename : string;
  upload_content_type : string;
  file : list byte
}.

(** A form field is an uploaded file or a plain string. *)
Inductive FormValue :=
| FormFile (f : UploadFile)
| FormText (s : string).

(** A request, by what [await request.form()] returns. *)
Record HttpRequest := { form : gmap string FormValue }.

Record PageResponse := {
  page_template : string;
  page_request : HttpRequest
}.

Definition upload_completed (request : HttpRequest)
    : World → World * (py_exn + PageResponse) := λ w,
  match form request !! "video_recording" with
  | None => (w, inl (Exn (KeyError "video_recording")))
  | Some (FormText _) => (w, inl (AttributeError "filename"))
  | Some (FormFile video_recording) =>
      let filename := filename video_recording in
      let content_type := upload_content_type video_recording in
      let contents := file video_recording in
      match add_file_and_metadata_to_blob_storage filename contents content_type w with
      | (w', inl e) => (w', inl (Exn e))
      | (w', inr _) =>
          (w', inr {| page_template := "uploaded.html"; page_request := request |})
      end
  end.

(** ** The error pages *)

Record HTTPException := { exc_status_code : Z }.

Record ErrorPage (Req : Type) := {
  error_page_template : string;
  error_page_request : Req;
  error_code : Z;
  error_message : string
}.
Arguments error_page_template {Req}.
Arguments error_page_request {Req}.
Arguments error_code {Req}.
Arguments error_message {Req}.

Definition error_messages : gmap Z string :=
  <[404%Z := "Sorry, the page you're looking for isn't here."]>
  (<[500%Z := "Server error."]> ∅).

(** [error_template(request, exc)]; [None] stands for the [KeyError] of the
    subscript [error_messages[exc.status_code]]. *)
Definition error_template {Req : Type} (request : Req) (exc : HTTPException)
    : option (ErrorPage Req) :=
  message ←
    (if bool_decide (is_Some (error_messages !! exc_status_code exc))
     then error_messages !! exc_status_code exc
     else Some "No message saved for this error.");
  Some {| error_page_template := "layout/error.html"; error_page_request := request;
          error_code := exc_status_code exc; error_message := message |}.

(** [exception_handlers = {404: error_template, 500: error_template}] *)
Definition exception_handlers {Req : Type}
    : gmap Z (Req → HTTPException → option (ErrorPage Req)) :=
  <[404%Z := error_template]> (<[500%Z := error_template]> ∅).

(** ** The middleware stack, built when the module is loaded *)

Inductive Middleware :=
| GZipMiddleware (minimum_size : N)
| ProxyHeadersMiddleware (trusted_hosts : string)
| GitHubAuth (client_id client_secret : option string) (require_auth : bool)
    (allow_users : list string).

(** The list [middleware] after the [if os.getenv("DEBUG", None) is None]
    statement, for the process environment [environ] ([os.getenv(k)] is
    [environ !! k]); calling [split] on an unset variable raises. *)
Definition middleware (environ : gmap string string) : py_exn + list Middleware :=
  let middleware := [GZipMiddleware 500; ProxyHeadersMiddleware "*"] in
  match environ !! "DEBUG" with
  | None =>
      match environ !! "GITHUB_ALLOWED_USERS" with
      | None => inl (AttributeError "split")
      | Some users =>
          inr (middleware ++
               [GitHubAuth (environ !! "GITHUB_CLIENT_ID")
                  (environ !! "GITHUB_CLIENT_SECRET") true (PyStr.split "," users)])
      end
  | Some _ => inr middleware
  end.

(** ** More notions for the statements *)

(** [sep.join(pieces)] *)
Fixpoint join (sep : ascii) (pieces : list string) : string :=
  match pieces with
  | [] => EmptyString
  | [piece] => piece
  | piece :: rest => piece +:+ String sep (join sep rest)
  end.

(** Every open client was handed out before [next_client]: a new client
    never takes the place of an open one. *)
Definition clients_fresh (w : World) : Prop :=
  ∀ h, h ∈ open_clients w → (h < next_client w)%nat.

(** Every blob of the container has the four keys [gallery] reads. *)
Definition listable (w : World) : Prop :=
  ∀ name b k, blobs w !! name = Some b → k ∈ display_keys → is_Some (metadata b !! k).

(** The blob [b] under [name] is as the upload handler writes them: the name
    is a version 4 UUID, a [.] and the lower-cased extension of some file
    name, and the metadata is that of an upload of that file name. *)
Definition written_by_upload (name : string) (b : Blob) : Prop :=
  ∃ file_name id,
    PyUUID.is_uuid4 id = true ∧
    name = id +:+ "." +:+ PyStr.lower (Spec.suffix_after_last "." file_name) ∧
    metadata b = upload_metadata (PyStr.strip file_name) id.

(** A series of uploads, one after the other, each returning or raising. *)
Fixpoint uploads (files : list (string * list byte * string)) (w : World) : World :=
  match files with
  | [] => w
  | (file_name, file_contents, file_content_type) :: rest =>
      uploads rest
        (add_file_and_metadata_to_blob_storage file_name file_contents file_content_type w).1
  end.

(** The first key of [keys] that [meta] lacks. *)
Fixpoint first_missing (meta : gmap string string) (keys : list string) : option string :=
  match keys with
  | [] => None
  | k :: rest =>
      match meta !! k with
      | Some _ => first_missing meta rest
      | None => Some k
      end
  end.



(** * Properties *)

(** ** The Python operations on sample values *)

Example lower_clip : PyStr.lower "clip.MP4" = "clip.mp4".
Proof. reflexivity. Qed.

Example split_dots : PyStr.split "." "a.b.MP4" = ["a"; "b"; "MP4"].
Proof. reflexivity. Qed.

Example split_no_dot : PyStr.split "." "noext" = ["noext"].
Proof. reflexivity. Qed.

Example split_trailing_dot : PyStr.split "." "clip." = ["clip"; ""].
Proof. reflexivity. Qed.

Example str_uuid_zero :
  PyUUID.str (PyUUID.UUID_version4 0) = "00000000-0000-4000-8000-000000000000".
Proof. reflexivity. Qed.

Example next_uuid4_healthy :
  next_uuid4 healthy = "9f1c2d3e-4a5b-4c7d-8fc2-e6194c7fb2e4".
Proof. vm_compute. reflexivity. Qed.

Example str_uuid_ones :
  PyUUID.str (PyUUID.UUID_version4 (2 ^ 128 - 1)) = "ffffffff-ffff-4fff-bfff-ffffffffffff".
Proof. vm_compute. reflexivity. Qed.

(** ** [split], [lower] and the suffix after the last separator *)

Section split_facts.
Import PyStr Spec.
Variable sep : ascii.

Lemma split_no_sep s : contains sep s = false → split sep s = [s].
Proof.
  induction s as [|c s IH]; cbn; [done|].
  destruct (Ascii.eqb c sep); [done|]. cbn. intros H. by rewrite IH.
Qed.

Lemma split_cons s : ∃ piece pieces, split sep s = piece :: pieces.
Proof.
  destruct s as [|c s]; cbn; [by eauto|].
  destruct (Ascii.eqb c sep); [by eauto|]. destruct (split sep s); eauto.
Qed.

(** A split into one piece means that the separator does not occur. *)
Lemma split_singleton s p : split sep s = [p] → contains sep s = false.
Proof.
  revert p. induction s as [|c s IH]; intros p; cbn; [done|].
  destruct (Ascii.eqb c sep).
  - destruct (split_cons s) as (x & xs & ->). done.
  - cbn. destruct (split sep s) as [|y [|z ys]] eqn:Hy; [| |done].
    + destruct (split_cons s) as (x & xs & Hx). congruence.
    + intros _. by apply (IH y).
Qed.

(** The source's [s.split(sep)[-1]] is the specification's suffix. *)
Lemma last_split s : last (split sep s) = Some (suffix_after_last sep s).
Proof.
  induction s as [|c s IH]; [done|].
  cbn [split suffix_after_last].
  destruct (contains sep s) eqn:Hs.
  - destruct (Ascii.eqb c sep).
    + by rewrite last_cons, IH.
    + destruct (split sep s) as [|p ps] eqn:Hsp; [done|].
      rewrite last_cons in IH. rewrite last_cons.
      destruct (last ps) eqn:Hl; [done|]. exfalso.
      destruct ps as [|q qs]; [|by rewrite last_cons in Hl; destruct (last qs)].
      apply split_singleton in Hsp. congruence.
  - rewrite (split_no_sep _ Hs). by destruct (Ascii.eqb c sep).
Qed.


Lemma suffix_after_last_free s : contains sep (suffix_after_last sep s) = false.
Proof.
  induction s as [|c s IH]; [done|]. cbn [suffix_after_last].
  destruct (contains sep s) eqn:Hs; [done|].
  destruct (Ascii.eqb c sep) eqn:Hc; [done|]. cbn. by rewrite Hc, Hs.
Qed.

End split_facts.

(** ** The text of a version 4 UUID *)

Section uuid_facts.
Import PyUUID.

Lemma hex_digit_is_hex d : d < 16 → is_hex (hex_digit d) = true.
Proof.
  intros H. destruct d as [|p]; [reflexivity|].
  do 4 (try destruct p as [p|p|]); try reflexivity; lia.
Qed.

Lemma is_hex_nibble x : is_hex (hex_digit (N.land x 15)) = true.
Proof.
  apply hex_digit_is_hex. change 15 with (N.ones 4).
  rewrite N.land_ones. by apply N.mod_lt.
Qed.

Lemma testbit_above a k n : a < 2 ^ k → k ≤ n → N.testbit a n = false.
Proof.
  intros Ha Hk. destruct (N.eq_dec a 0) as [->|Hz]; [apply N.bits_0|].
  apply N.bits_above_log2. apply N.log2_lt_pow2 in Ha; lia.
Qed.

Ltac bit_cases n :=
  assert (n = 0 ∨ n = 1 ∨ n = 2 ∨ n = 3) as [ -> | [ -> | [ -> | -> ] ] ] by lia.

(** Bits 76 to 79 hold the version number 4. *)
Lemma version_nibble r : N.land (N.shiftr (UUID_version4 r) 76) 15 = 4.
Proof.
  unfold UUID_version4. apply N.bits_inj. intros n.
  rewrite N.land_spec, N.shiftr_spec', N.lor_spec, N.ldiff_spec.
  rewrite !N.shiftl_spec_high' by lia.
  replace (n + 76 - 64) with (n + 12) by lia.
  replace (n + 76 - 76) with n by lia.
  destruct (N.lt_ge_cases n 4) as [Hn|Hn].
  - bit_cases n; cbn; rewrite ?andb_false_r; reflexivity.
  - rewrite (testbit_above 15 4 n), (testbit_above 4 4 n) by (done || lia).
    apply andb_false_r.
Qed.

(** Bits 62 and 63 hold the RFC 4122 variant, binary 10. *)
Lemma variant_nibble r :
  ∃ lo, lo < 4 ∧ N.land (N.shiftr (UUID_version4 r) 60) 15 = 8 + lo.
Proof.
  exists (N.land (N.shiftr (r mod 2 ^ 128) 60) 3).
  assert (Hlo : N.land (N.shiftr (r mod 2 ^ 128) 60) 3 < 4).
  { change 3 with (N.ones 2). rewrite N.land_ones. by apply N.mod_lt. }
  split; [exact Hlo|].
  set (lo := N.land _ 3) in *.
  replace (8 + lo) with (N.lor 8 lo) by (bit_cases lo; reflexivity).
  unfold UUID_version4, lo. apply N.bits_inj. intros n.
  do 3 rewrite ?N.land_spec, ?N.lor_spec, ?N.ldiff_spec, ?N.shiftr_spec'.
  destruct (N.lt_ge_cases n 4) as [Hn|Hn].
  - do 3 rewrite ?N.land_spec, ?N.lor_spec, ?N.ldiff_spec, ?N.shiftr_spec'.
    rewrite (N.shiftl_spec_high' 49152), (N.shiftl_spec_high' 32768) by lia.
    replace (n + 60 - 48) with (n + 12) by lia.
    rewrite (N.shiftl_spec_low 61440), (N.shiftl_spec_low 4) by lia.
    bit_cases n; cbn;
      rewrite ?andb_false_r, ?andb_true_r, ?orb_false_r, ?orb_true_r; reflexivity.
  - rewrite (testbit_above 15 4 n), (testbit_above 8 4 n), (testbit_above 3 4 n)
      by (done || lia).
    by rewrite !andb_false_r.
Qed.

(** Whatever the 16 random bytes, [str(uuid.uuid4())] has the syntax of a
    version 4 UUID. *)
Lemma str_uuid4_syntax r : is_uuid4 (str (UUID_version4 r)) = true.
Proof.
  destruct (variant_nibble r) as (lo & Hlo & Hvar).
  pose proof (version_nibble r) as Hver.
  revert Hvar Hver. generalize (UUID_version4 r). intros u Hvar Hver.
  cbv [is_uuid4 uuid4_pattern str format_x substring String.append
       replicate app matches pat_ok].
  rewrite !N.shiftr_shiftr.
  repeat match goal with
    | |- context [N.shiftr u ?k] =>
        progress (let k' := eval vm_compute in k in
                  change (N.shiftr u k) with (N.shiftr u k'))
    end.
  rewrite Hver, Hvar, !is_hex_nibble.
  bit_cases lo; reflexivity.
Qed.
End uuid_facts.

(** ** [strip] and the header values of an upload *)

Section strip_facts.
Import PyStr PyUUID.

Lemma matches_Forall (P : ascii → bool) :
  (∀ p c, pat_ok p c = true → P c = true) →
  ∀ ps s, matches ps s = true → Forall (λ c, P c = true) (list_ascii_of_string s).
Proof.
  intros HP ps. induction ps as [|p ps IH]; intros [|c s]; cbn; try done.
  intros [Hp Hs]%andb_true_iff. constructor; [by apply (HP p)|by apply IH].
Qed.

Lemma pat_ok_plain p c :
  pat_ok p c = true →
  negb (is_space c) && negb (Ascii.eqb c "013") && negb (Ascii.eqb c "010") = true.
Proof. destruct p, c as [[] [] [] [] [] [] [] []]; done. Qed.

Lemma lstrip_plain s :
  Forall (λ c, is_space c = false) (list_ascii_of_string s) → lstrip s = s.
Proof. destruct s as [|c s]; [done|]. cbn. intros [Hc _]%Forall_cons. by rewrite Hc. Qed.

Lemma rstrip_plain s :
  Forall (λ c, is_space c = false) (list_ascii_of_string s) → rstrip s = s.
Proof.
  induction s as [|c s IH]; [done|]. cbn. intros [Hc Hs]%Forall_cons.
  rewrite (IH Hs), Hc. by destruct s.
Qed.

Lemma contains_Forall sep s :
  Forall (λ c, Ascii.eqb c sep = false) (list_ascii_of_string s) → contains sep s = false.
Proof.
  induction s as [|c s IH]; [done|]. cbn. intros [Hc Hs]%Forall_cons.
  by rewrite Hc, (IH Hs).
Qed.

(** The text of a version 4 UUID is its own [strip()] and an acceptable
    header value. *)
Lemma uuid4_plain s :
  is_uuid4 s = true → strip s = s ∧ header_safe s = true.
Proof.
  intros Hs.
  pose proof (matches_Forall _ pat_ok_plain _ _ Hs) as Hall.
  assert (Hsp : Forall (λ c, is_space c = false) (list_ascii_of_string s)).
  { eapply Forall_impl; [exact Hall|]. intros c. cbn. by destruct (is_space c). }
  split.
  - unfold strip. by rewrite (lstrip_plain _ Hsp), (rstrip_plain _ Hsp).
  - unfold header_safe. rewrite !contains_Forall; [done|..].
    + eapply Forall_impl; [exact Hall|]. intros c. cbn.
      destruct (Ascii.eqb c "010"); [by rewrite !andb_false_r|done].
    + eapply Forall_impl; [exact Hall|]. intros c. cbn.
      destruct (Ascii.eqb c "013"); [by rewrite andb_false_r|done].
Qed.

Lemma forallb_map_to_list (P : string → bool) (m : gmap string string) :
  forallb (λ kv, P kv.2) (map_to_list m) = true ↔ map_Forall (λ _ v, P v = true) m.
Proof.
  rewrite forallb_forall, map_Forall_to_list, Forall_forall.
  split; intros H [k v] Hin; apply (H (k, v)); by apply list_elem_of_In.
Qed.

(** What the SDK makes of the metadata of an upload: the file name
    stripped, the other values as they are. *)
Lemma strip_upload_metadata file_name id :
  is_uuid4 id = true →
  strip <$> upload_metadata file_name id = upload_metadata (strip file_name) id.
Proof.
  intros [Hid _]%uuid4_plain. unfold upload_metadata.
  rewrite !fmap_insert, fmap_empty, Hid. reflexivity.
Qed.

(** The metadata headers are acceptable exactly when the stripped file name is. *)
Lemma upload_metadata_safe name id :
  is_uuid4 id = true →
  forallb (λ kv, header_safe kv.2) (map_to_list (upload_metadata name id)) = header_safe name.
Proof.
  intros [_ Hid]%uuid4_plain.
  destruct (header_safe name) eqn:Hname.
  - apply forallb_map_to_list. unfold upload_metadata.
    repeat (apply map_Forall_insert_2; [done|]). apply map_Forall_empty.
  - apply not_true_iff_false. intros H%forallb_map_to_list.
    specialize (H "original_file_name" name). unfold upload_metadata in H.
    rewrite lookup_insert_eq in H. specialize (H eq_refl). congruence.
Qed.
End strip_facts.

(** ** The storage service and the SDK's pipeline *)

Section store_facts.
Implicit Types (w : World) (b : Blob) (name : string).

Lemma service_put_inr w name b bs :
  service_put w name b = inr bs ↔
  outage w (length (requests w)) = None ∧ blobs w !! name = None ∧
  bs = <[name := b]> (blobs w).
Proof.
  unfold service_put. destruct (outage w _), (blobs w !! name);
    (split; [intros ?; simplify_eq; by auto | intros (? & ? & ?); by simplify_eq]).
Qed.

Lemma service_put_inl w name b e :
  service_put w name b = inl e ↔
  outage w (length (requests w)) = Some e ∨
  outage w (length (requests w)) = None ∧ is_Some (blobs w !! name) ∧
  e = ResourceExistsError name.
Proof.
  unfold service_put. destruct (outage w _), (blobs w !! name);
    (split; [intros ?; simplify_eq; by eauto 6
            | intros [? | (? & [? ?] & ?)]; by simplify_eq]).
Qed.

Lemma resent_0 request w : resent 0 request w = w.
Proof. by destruct w. Qed.

Lemma resent_resent j request w :
  resent j request (resent 1 request w) = resent (S j) request w.
Proof.
  unfold resent, set_requests. cbn. f_equal.
  induction j as [|j IH]; [done|]. cbn. by rewrite IH.
Qed.

(** The pipeline stops at the first answer that is no retryable error, or at
    the answer to the last retry; everything before was a retryable error. *)
Lemma send_spec {A : Type} (n : nat) request (service : World → exn + A) w :
  ∃ k, (k ≤ n)%nat ∧
    (send n request service w).1 = resent (S k) request w ∧
    (send n request service w).2 = service (resent k request w) ∧
    (∀ j, (j < k)%nat →
          ∃ e, service (resent j request w) = inl e ∧ retryable e = true) ∧
    (∀ e, service (resent k request w) = inl e → retryable e = false ∨ k = n).
Proof.
  revert w. induction n as [|n IH]; intros w.
  - exists 0%nat. cbn [send]. rewrite resent_0.
    split; [done|]. split; [by destruct (service w) as [e|a]; [destruct (retryable e)|]|].
    split; [by destruct (service w) as [e|a]; [destruct (retryable e)|]|].
    split; [intros j; lia | by right].
  - cbn [send]. destruct (service w) as [e|a] eqn:Hs.
    + destruct (retryable e) eqn:Hre.
      * destruct (IH (set_requests (request :: requests w) w))
          as (k & Hk & Hw & Hr & Hbefore & Hlast).
        change (set_requests (request :: requests w) w)
          with (resent 1 request w) in *.
        rewrite !resent_resent in *. exists (S k).
        split; [lia|]. split; [done|]. split; [done|]. split.
        -- intros [|j] Hj.
           ++ exists e. by rewrite resent_0.
           ++ destruct (Hbefore j) as (e' & He' & Hre'); [lia|].
              rewrite resent_resent in He'. by exists e'.
        -- intros e' He'. destruct (Hlast e' He'); [by left | right; lia].
      * exists 0%nat. rewrite resent_0, Hs. split; [lia|]. split; [done|].
        split; [done|]. split; [intros j; lia|]. intros e' [= <-]. by left.
    + exists 0%nat. rewrite resent_0, Hs. split; [lia|]. split; [done|].
      split; [done|]. split; [intros j; lia|]. done.
Qed.

Lemma service_put_resent k request w name b :
  service_put (resent k request w) name b =
  match outage w (k + length (requests w)) with
  | Some e => inl e
  | None =>
      match blobs w !! name with
      | Some _ => inl (ResourceExistsError name)
      | None => inr (<[name := b]> (blobs w))
      end
  end.
Proof. unfold service_put, resent. cbn. by rewrite length_app, length_replicate. Qed.

Lemma service_list_resent k request w :
  service_list (resent k request w) =
  match outage w (k + length (requests w)) with
  | Some e => inl e
  | None => inr (map_to_list (blobs w))
  end.
Proof. unfold service_list, resent. cbn. by rewrite length_app, length_replicate. Qed.
End store_facts.

(** ** The runs of the two handlers *)

Section upload_facts.
Variables (file_name : string) (file_contents : list byte) (file_content_type : string).
Variable w : World.

Let key : string :=
  next_uuid4 w +:+ "." +:+ PyStr.lower (Spec.suffix_after_last "." file_name).
Let body : Blob :=
  {| data := file_contents;
     metadata := upload_metadata (PyStr.strip file_name) (next_uuid4 w);
     content_type := file_content_type |}.
Let started : World :=
  set_clients ({[next_client w]} ∪ open_clients w) (S (next_client w))
    (set_draws (S (draws w)) w).

(** The run of the upload handler, step by step. *)
Lemma upload_run :
  add_file_and_metadata_to_blob_storage file_name file_contents file_content_type w =
  if header_safe (PyStr.strip file_name) && header_safe file_content_type then
    match send retry_total (PutBlob key body) (λ w', service_put w' key body) started with
    | (w', inl e) => (w', inl e)
    | (w', inr bs) =>
        (set_clients (open_clients w' ∖ {[next_client w]}) (next_client w')
           (set_blobs bs w'), inr tt)
    end
  else (started, inl ValueError).
Proof.
  unfold add_file_and_metadata_to_blob_storage, subscript_last.
  rewrite last_split.
  unfold new_BlobClient, open_client, upload_blob, close_client, uuid4,
    mbind, M_bind, mret, M_ret, raise. cbn -[send].
  fold (next_uuid4 w). fold key.
  rewrite strip_upload_metadata by apply str_uuid4_syntax.
  rewrite upload_metadata_safe by apply str_uuid4_syntax.
  fold body. destruct (header_safe (PyStr.strip file_name) && header_safe file_content_type);
    [|done].
  change (set_clients _ _ (set_draws _ w)) with started.
  by destruct (send retry_total (PutBlob key body) (λ w', service_put w' key body) started)
    as [w' [e|bs]].
Qed.

(** The outcomes of an upload: the HTTP client refuses a header value and
    nothing is sent; or the write goes out up to four times, each time but
    the last answered with a retryable error, and the last answer decides. *)
Lemma upload_cases :
  let r := add_file_and_metadata_to_blob_storage file_name file_contents file_content_type w in
  (header_safe (PyStr.strip file_name) && header_safe file_content_type = false ∧
   r = (started, inl ValueError)) ∨
  (header_safe (PyStr.strip file_name) && header_safe file_content_type = true ∧
   ∃ k, (k ≤ retry_total)%nat ∧
     (∀ j, (j < k)%nat →
        ∃ e, service_put (resent j (PutBlob key body) w) key body = inl e ∧
             retryable e = true) ∧
     match service_put (resent k (PutBlob key body) w) key body with
     | inl e =>
         (retryable e = false ∨ k = retry_total) ∧
         r = (resent (S k) (PutBlob key body) started, inl e)
     | inr bs =>
         r = (set_clients (({[next_client w]} ∪ open_clients w) ∖ {[next_client w]})
                (S (next_client w))
                (set_blobs bs (resent (S k) (PutBlob key body) started)), inr tt)
     end).
Proof.
  intros r. unfold r. rewrite upload_run.
  destruct (header_safe (PyStr.strip file_name) && header_safe file_content_type);
    [right | by left].
  split; [done|].
  destruct (send_spec retry_total (PutBlob key body) (λ w', service_put w' key body) started)
    as (k & Hk & Hw & Hr & Hbefore & Hlast).
  exists k. split; [done|]. split; [exact Hbefore|].
  change (service_put (resent k (PutBlob key body) started) key body)
    with (service_put (resent k (PutBlob key body) w) key body) in *.
  destruct (send retry_total (PutBlob key body) (λ w', service_put w' key body) started)
    as [w' res]. cbn in Hw, Hr. subst w' res.
  destruct (service_put (resent k (PutBlob key body) w) key body) as [e|bs] eqn:Hput; [|done].
  split; [by apply Hlast|done].
Qed.
End upload_facts.

Section upload_results.
Variables (file_name : string) (file_contents : list byte) (file_content_type : string).
Variable w : World.
Let r := add_file_and_metadata_to_blob_storage file_name file_contents file_content_type w.
Let key : string :=
  next_uuid4 w +:+ "." +:+ PyStr.lower (Spec.suffix_after_last "." file_name).
Let body : Blob :=
  {| data := file_contents;
     metadata := upload_metadata (PyStr.strip file_name) (next_uuid4 w);
     content_type := file_content_type |}.

Ltac upload_outcomes :=
  destruct (upload_cases file_name file_contents file_content_type w)
    as [[Hsafe Hrun] | (Hsafe & k & Hk & Hbefore & Hlast)];
  subst r key body;
  [ | match type of Hlast with
      | match ?put with _ => _ end =>
          destruct put as [e'|bs] eqn:Hput;
          [destruct Hlast as [Hstop Hrun] | rename Hlast into Hrun]
      end ];
  rewrite Hrun in *; clear Hrun.

(** An upload that returns has stored its object under a name that was free. *)
Lemma upload_ok_inv :
  r.2 = inr tt →
  header_safe (PyStr.strip file_name) = true ∧ header_safe file_content_type = true ∧
  blobs w !! key = None ∧ blobs r.1 = <[key := body]> (blobs w).
Proof.
  upload_outcomes; try done. intros _.
  apply andb_true_iff in Hsafe as [? ?].
  rewrite service_put_resent in Hput.
  destruct (outage w _); [done|]. destruct (blobs w !! _); [done|].
  by injection Hput as <-.
Qed.

(** An upload that raises has stored nothing, and left its client open. *)
Lemma upload_error_inv e :
  r.2 = inl e →
  blobs r.1 = blobs w ∧ open_clients r.1 = {[next_client w]} ∪ open_clients w.
Proof. by upload_outcomes. Qed.

Lemma upload_ok_clients :
  r.2 = inr tt →
  open_clients r.1 = ({[next_client w]} ∪ open_clients w) ∖ {[next_client w]}.
Proof. by upload_outcomes. Qed.

(** Whatever the outcome, one id is drawn and one client is made. *)
Lemma upload_world :
  draws r.1 = S (draws w) ∧ urandom r.1 = urandom w ∧ outage r.1 = outage w ∧
  next_client r.1 = S (next_client w).
Proof. by upload_outcomes. Qed.


(** When the header values are acceptable and the store accepts the first
    write, the upload returns after that one request. *)
Lemma upload_returns :
  header_safe (PyStr.strip file_name) = true →
  header_safe file_content_type = true →
  outage w (length (requests w)) = None →
  blobs w !! key = None →
  r.2 = inr tt ∧ blobs r.1 = <[key := body]> (blobs w) ∧
  requests r.1 = PutBlob key body :: requests w.
Proof.
  intros Hname Htype Hup Hfree.
  assert (Hfirst : service_put (resent 0 (PutBlob key body) w) key body
                   = inr (<[key := body]> (blobs w))).
  { rewrite service_put_resent. cbn. by rewrite Hup, Hfree. }
  revert Hfirst. upload_outcomes; intros Hfirst.
  - by rewrite Hname, Htype in Hsafe.
  - destruct k as [|k]; [congruence|].
    destruct (Hbefore 0%nat) as (e0 & He0 & _); [lia|]. congruence.
  - destruct k as [|k].
    + rewrite Hfirst in Hput. by injection Hput as <-.
    + destruct (Hbefore 0%nat) as (e0 & He0 & _); [lia|]. congruence.
Qed.


End upload_results.

Section gallery_facts.
Implicit Types (w : World) (meta : gmap string string).

Lemma gallery_item_cases meta w :
  (∃ item, gallery_item meta w = (w, inr item) ∧ projects meta item) ∨
  (∃ k, k ∈ display_keys ∧ meta !! k = None ∧
        gallery_item meta w = (w, inl (KeyError k))).
Proof.
  unfold gallery_item, getitem, projects, display_keys, mbind, M_bind, mret, M_ret, raise.
  destruct (meta !! "uuid") as [u|] eqn:Hu; cbn;
    [|right; exists "uuid"; by rewrite !elem_of_cons; auto].
  destruct (meta !! "author") as [a|] eqn:Ha; cbn;
    [|right; exists "author"; by rewrite !elem_of_cons; auto].
  destruct (meta !! "title") as [t|] eqn:Ht; cbn;
    [|right; exists "title"; by rewrite !elem_of_cons; auto].
  destruct (meta !! "badge") as [b|] eqn:Hb; cbn;
    [|right; exists "badge"; by rewrite !elem_of_cons; auto 6].
  left. eexists. split; [reflexivity|]. cbn. auto.
Qed.

Lemma gallery_loop_cases (listed : list (string * Blob)) (acc : list GalleryItem) w :
  (∃ items, gallery_loop listed acc w = (w, inr (acc ++ items)) ∧
            Forall2 (λ blob item, projects (metadata blob.2) item) listed items) ∨
  (∃ k blob, blob ∈ listed ∧ k ∈ display_keys ∧ metadata blob.2 !! k = None ∧
             gallery_loop listed acc w = (w, inl (KeyError k))).
Proof.
  revert acc. induction listed as [|blob rest IH]; intros acc.
  - left. exists []. by rewrite app_nil_r.
  - cbn [gallery_loop]. unfold mbind, M_bind.
    destruct (gallery_item_cases (metadata blob.2) w)
      as [(item & -> & Hitem) | (k & Hk & Hnone & ->)].
    + destruct (IH (acc ++ [item])) as [(items & -> & Hall) | (k & b & Hb & Hk & Hnone & ->)].
      * left. exists (item :: items). rewrite <-app_assoc. by split; [|constructor].
      * right. exists k, b. by rewrite elem_of_cons; auto.
    + right. exists k, blob. by rewrite elem_of_cons; auto.
Qed.

Context {Req : Type} (request : Req).
Variable w : World.

Let started : World :=
  set_clients ({[S (next_client w)]} ∪ ({[next_client w]} ∪ open_clients w))
    (S (S (next_client w))) w.

(** The run of the gallery handler, step by step. *)
Lemma gallery_run :
  gallery request w =
  match send retry_total ListBlobs service_list started with
  | (w', inl e) => (w', inl e)
  | (w', inr listed) =>
      match gallery_loop listed [] w' with
      | (w'', inl e) => (w'', inl e)
      | (w'', inr blobs_list) =>
          (set_clients (open_clients w'' ∖ {[S (next_client w)]} ∖ {[next_client w]})
             (next_client w'') w'',
           inr {| template := "gallery.html"; context_request := request;
                  context_blobs := blobs_list |})
      end
  end.
Proof.
  unfold gallery, new_BlobServiceClient, get_container_client, list_blobs,
    open_client, close_client, mbind, M_bind, mret, M_ret. cbn -[send].
  change (set_clients _ _ (set_clients _ _ w)) with started.
  destruct (send retry_total ListBlobs service_list started) as [w' [e|listed]]; [done|].
  by destruct (gallery_loop listed [] w') as [w'' [e|items]].
Qed.

(** The outcomes of a listing: the listing request goes out up to four
    times, each time but the last answered with a retryable error; the last
    answer is an error, which is raised, or the blobs, which are shown one
    by one until a key is missing. *)
Lemma gallery_cases :
  ∃ k, (k ≤ retry_total)%nat ∧
    (∀ j, (j < k)%nat →
       ∃ e, outage w (j + length (requests w)) = Some e ∧ retryable e = true) ∧
    match outage w (k + length (requests w)) with
    | Some e =>
        (retryable e = false ∨ k = retry_total) ∧
        gallery request w = (resent (S k) ListBlobs started, inl e)
    | None =>
        (∃ items,
           Forall2 (λ blob item, projects (metadata blob.2) item)
             (map_to_list (blobs w)) items ∧
           gallery request w =
             (set_clients
                (({[S (next_client w)]} ∪ ({[next_client w]} ∪ open_clients w))
                   ∖ {[S (next_client w)]} ∖ {[next_client w]})
                (S (S (next_client w))) (resent (S k) ListBlobs started),
              inr {| template := "gallery.html"; context_request := request;
                     context_blobs := items |})) ∨
        (∃ key blob,
           blob ∈ map_to_list (blobs w) ∧ key ∈ display_keys ∧
           metadata blob.2 !! key = None ∧
           gallery request w = (resent (S k) ListBlobs started, inl (KeyError key)))
    end.
Proof.
  rewrite gallery_run.
  destruct (send_spec retry_total ListBlobs service_list started)
    as (k & Hk & Hw & Hr & Hbefore & Hlast).
  assert (Hanswer : ∀ j, service_list (resent j ListBlobs started) =
                         match outage w (j + length (requests w)) with
                         | Some e => inl e
                         | None => inr (map_to_list (blobs w))
                         end) by (intros j; by rewrite service_list_resent).
  exists k. split; [done|]. split.
  { intros j Hj. destruct (Hbefore j Hj) as (e & He & Hre). exists e. split; [|done].
    rewrite Hanswer in He. destruct (outage w _); by simplify_eq. }
  rewrite Hanswer in Hr, Hlast.
  destruct (send retry_total ListBlobs service_list started) as [w' res].
  cbn in Hw, Hr. subst w' res.
  destruct (outage w (k + length (requests w))) as [e|]; [by split; [apply Hlast|]|].
  destruct (gallery_loop_cases (map_to_list (blobs w)) [] (resent (S k) ListBlobs started))
    as [(items & -> & Hall) | (key & blob & Hin & Hkey & Hnone & ->)].
  - left. by exists items.
  - right. by exists key, blob.
Qed.
End gallery_facts.

Section gallery_results.
Context {Req : Type} (request : Req).
Implicit Types (w : World) (resp : TemplateResponse Req).

Lemma projects_is_Some meta item k :
  projects meta item → k ∈ display_keys → is_Some (meta !! k).
Proof.
  intros (Hu & Ha & Ht & Hb & _). unfold display_keys. rewrite !elem_of_cons, elem_of_nil.
  intros [->|[->|[->|[->|[]]]]]; eauto.
Qed.

Ltac gallery_outcomes w :=
  destruct (gallery_cases request w) as (k & Hk & Hbefore & Hlast);
  destruct (outage w (k + length (requests w))) as [e'|] eqn:Hout;
  [ destruct Hlast as [Hstop Hrun]
  | destruct Hlast as [(items & Hall & Hrun) | (key & blob & Hin & Hkey & Hnone & Hrun)] ];
  match goal with H : gallery _ _ = _ |- _ => rewrite H in *; clear H end.

(** What a listing that returns has done. *)
Lemma gallery_ok_inv w resp :
  (gallery request w).2 = inr resp →
  template resp = "gallery.html" ∧ context_request resp = request ∧
  Forall2 (λ blob item, projects (metadata blob.2) item)
    (map_to_list (blobs w)) (context_blobs resp).
Proof. gallery_outcomes w; try done. by intros [= <-]. Qed.

(** What a listing that raises has met: the error of the store that ended
    the pipeline, or a blob without one of the four keys. *)
Lemma gallery_error_inv w e :
  (gallery request w).2 = inl e →
  (∃ k, (k ≤ retry_total)%nat ∧ outage w (k + length (requests w)) = Some e ∧
        (retryable e = false ∨ k = retry_total) ∧
        ∀ j, (j < k)%nat →
          ∃ e', outage w (j + length (requests w)) = Some e' ∧ retryable e' = true) ∨
  (∃ k name b, k ∈ display_keys ∧ blobs w !! name = Some b ∧
               metadata b !! k = None ∧ e = KeyError k).
Proof.
  gallery_outcomes w; try done.
  - intros [= <-]. left. by exists k.
  - intros [= <-]. right. destruct blob as [name b]. exists key, name, b.
    by apply elem_of_map_to_list in Hin.
Qed.

(** When the store answers the first listing request, the listing returns
    or stops at a missing key. *)
Lemma gallery_answered w :
  outage w (length (requests w)) = None →
  (∃ resp, (gallery request w).2 = inr resp) ∨
  (∃ k name b, k ∈ display_keys ∧ blobs w !! name = Some b ∧
               metadata b !! k = None ∧ (gallery request w).2 = inl (KeyError k)).
Proof.
  intros Hup. destruct ((gallery request w).2) as [e|resp] eqn:Hg; [|by eauto].
  apply gallery_error_inv in Hg
    as [(k & _ & Hout & _ & Hbefore) | (k & name & b & ? & ? & ? & ->)].
  - destruct k as [|k]; [cbn in Hout; congruence|].
    destruct (Hbefore 0%nat) as (e' & He' & _); [lia|]. cbn in He'. congruence.
  - right. by exists k, name, b.
Qed.

(** A listing changes nothing but the clients and the log of requests. *)
Lemma gallery_world w :
  blobs (gallery request w).1 = blobs w ∧ draws (gallery request w).1 = draws w ∧
  urandom (gallery request w).1 = urandom w ∧ outage (gallery request w).1 = outage w ∧
  next_client (gallery request w).1 = S (S (next_client w)).
Proof. by gallery_outcomes w. Qed.

(** Whatever error ends a listing, the clients it opened stay open. *)
Lemma gallery_error_clients_open w e :
  (gallery request w).2 = inl e →
  next_client w ∈ open_clients (gallery request w).1 ∧
  S (next_client w) ∈ open_clients (gallery request w).1.
Proof.
  gallery_outcomes w; try done; intros _; cbn;
    rewrite !elem_of_union, !elem_of_singleton; auto.
Qed.

(** On the path that returns, they are closed again. *)
Lemma gallery_ok_clients_closed w resp :
  (gallery request w).2 = inr resp →
  (next_client w ∉ open_clients (gallery request w).1) ∧
  S (next_client w) ∉ open_clients (gallery request w).1.
Proof.
  gallery_outcomes w; try done. intros _. cbn.
  rewrite !elem_of_difference, !elem_of_singleton. tauto.
Qed.
End gallery_results.

(** Whatever error ends an upload, the client it opened stays open. *)
Lemma upload_error_client_open file_name file_contents file_content_type w e :
  (add_file_and_metadata_to_blob_storage file_name file_contents file_content_type w).2
    = inl e →
  next_client w ∈
    open_clients
      (add_file_and_metadata_to_blob_storage file_name file_contents file_content_type w).1.
Proof.
  intros [_ ->]%upload_error_inv. by apply elem_of_union_l, elem_of_singleton.
Qed.

(** On the path that returns, it is closed again. *)
Lemma upload_ok_client_closed file_name file_contents file_content_type w :
  (add_file_and_metadata_to_blob_storage file_name file_contents file_content_type w).2
    = inr tt →
  next_client w ∉
    open_clients
      (add_file_and_metadata_to_blob_storage file_name file_contents file_content_type w).1.
Proof.
  intros ->%upload_ok_clients. rewrite elem_of_difference, elem_of_singleton. tauto.
Qed.

(** ** The upload handler *)




(** C2, as the code has it.  When the upload returns, the object stored
    under its key carries a metadata record with exactly five keys: the
    file name the client supplied with the white space around it stripped
    (by the SDK), the generated id, and the three fixed values of author,
    title and badge, which depend on nothing of the upload. *)
Theorem upload_attaches_metadata (file_name : string) (file_contents : list byte)
    (file_content_type : string) (w : World) :
  let r := add_file_and_metadata_to_blob_storage file_name file_contents file_content_type w in
  let id := next_uuid4 w in
  let key := id +:+ "." +:+ PyStr.lower (Spec.suffix_after_last "." file_name) in
  r.2 = inr tt →
  ∃ b,
    blobs r.1 !! key = Some b ∧
    blobs w !! key = None ∧
    dom (metadata b) =
      ({["original_file_name"; "uuid"; "author"; "title"; "badge"]} : gset string) ∧
    metadata b !! "original_file_name" = Some (PyStr.strip file_name) ∧
    metadata b !! "uuid" = Some id ∧
    metadata b !! "author" = Some "Dummy User" ∧
    metadata b !! "title" = Some "Dummy title" ∧
    metadata b !! "badge" = Some "dummy badge".
Proof.
  intros r id key Hr.
  apply upload_ok_inv in Hr as (_ & _ & Hfree & Hblobs).
  eexists. split; [fold r in Hblobs; rewrite Hblobs; apply lookup_insert_eq|].
  split; [exact Hfree|]. cbn [metadata]. unfold upload_metadata.
  split; [rewrite !dom_insert_L, dom_empty_L; set_solver|].
  repeat split; by simplify_map_eq.
Qed.

Lemma upload_attaches_metadata_witness :
  let r := add_file_and_metadata_to_blob_storage " Clip.MP4" [x00] "video/mp4" healthy in
  ∃ b,
    blobs r.1 !! (next_uuid4 healthy +:+ ".mp4") = Some b ∧
    blobs healthy !! (next_uuid4 healthy +:+ ".mp4") = None ∧
    dom (metadata b) =
      ({["original_file_name"; "uuid"; "author"; "title"; "badge"]} : gset string) ∧
    metadata b !! "original_file_name" = Some "Clip.MP4" ∧
    metadata b !! "uuid" = Some (next_uuid4 healthy) ∧
    metadata b !! "author" = Some "Dummy User" ∧
    metadata b !! "title" = Some "Dummy title" ∧
    metadata b !! "badge" = Some "dummy badge".
Proof.
  apply (upload_attaches_metadata " Clip.MP4" [x00] "video/mp4" healthy).
  vm_compute. reflexivity.
Defined.

(** The claim as the specification states it fails on a file name that
    begins with a blank: the stored record holds the name without it. *)
Lemma upload_strips_file_name :
  let r := add_file_and_metadata_to_blob_storage " clip.mp4" [x00] "video/mp4" healthy in
  r.2 = inr tt ∧
  blobs r.1 !! (next_uuid4 healthy +:+ ".mp4") =
    Some {| data := [x00]; metadata := upload_metadata "clip.mp4" (next_uuid4 healthy);
            content_type := "video/mp4" |} ∧
  upload_metadata "clip.mp4" (next_uuid4 healthy) !! "original_file_name"
    ≠ Some " clip.mp4".
Proof. vm_compute. repeat split; try reflexivity. discriminate. Qed.

(** ** The gallery handler *)

(** C3.  When the store answers the listing and every object has the four
    metadata keys, [gallery] returns the template response whose list has
    one record for each object of the container at the time of the call, in
    the order of the enumeration: as many records as objects, each showing
    the [uuid], [author], [title] and [badge] stored with its object and the
    fixed placeholder image. *)
Theorem gallery_lists_every_blob {Req : Type} (request : Req) (w : World) :
  outage w (length (requests w)) = None →
  (∀ name b k, blobs w !! name = Some b → k ∈ display_keys → is_Some (metadata b !! k)) →
  ∃ items,
    (gallery request w).2 =
      inr {| template := "gallery.html"; context_request := request;
             context_blobs := items |} ∧
    length items = size (blobs w) ∧
    Forall2 (λ blob item, projects (metadata blob.2) item) (map_to_list (blobs w)) items.
Proof.
  intros Hup Hkeys.
  destruct (gallery_answered request w Hup)
    as [[[t rq items] Hg] | (k & name & b & Hk & Hb & Hnone & _)].
  - pose proof (gallery_ok_inv request w _ Hg) as (Ht & Hrq & Hall). cbn in *. subst.
    exists items. split; [done|]. split; [|done].
    apply Forall2_length in Hall. rewrite <-Hall. by rewrite length_map_to_list.
  - destruct (Hkeys name b k Hb Hk) as [v Hv]. congruence.
Qed.

Lemma gallery_lists_every_blob_witness :
  ∃ items,
    (gallery tt with_talk).2 =
      inr {| template := "gallery.html"; context_request := tt;
             context_blobs := items |} ∧
    length items = size (blobs with_talk) ∧
    Forall2 (λ blob item, projects (metadata blob.2) item)
      (map_to_list (blobs with_talk)) items.
Proof.
  apply (gallery_lists_every_blob tt with_talk); [reflexivity|].
  intros name b k Hb Hk.
  change (blobs with_talk) with ({["7.webm" := talk]} : gmap string Blob) in Hb.
  apply lookup_singleton_Some in Hb as [_ <-].
  unfold display_keys in Hk. rewrite !elem_of_cons, elem_of_nil in Hk.
  destruct Hk as [->|[->|[->|[->|[]]]]]; vm_compute; eauto.
Defined.

Example gallery_with_talk :
  (gallery tt with_talk).2 =
  inr {| template := "gallery.html"; context_request := tt;
         context_blobs :=
           [ {| uuid := "7";
                image_url := "https://bootsnipp.com/bootstrap-builder/libs/builder/icons/image.svg";
                author := "Dummy User"; title := "Dummy title"; badge := "dummy badge" |} ] |}.
Proof. vm_compute. reflexivity. Qed.

(** C4.  When the store answers the listing and some object lacks one of
    the four metadata keys, [gallery] raises [KeyError] for a key of the
    four that some object lacks: the missing value is not defaulted and the
    error is not caught. *)
Theorem gallery_missing_key_raises {Req : Type} (request : Req) (w : World)
    (name : string) (b : Blob) (k : string) :
  outage w (length (requests w)) = None →
  blobs w !! name = Some b →
  k ∈ display_keys →
  metadata b !! k = None →
  ∃ k' name' b',
    (gallery request w).2 = inl (KeyError k') ∧
    k' ∈ display_keys ∧ blobs w !! name' = Some b' ∧ metadata b' !! k' = None.
Proof.
  intros Hup Hb Hk Hnone.
  destruct (gallery_answered request w Hup)
    as [[resp Hg] | (k' & name' & b' & Hk' & Hb' & Hnone' & Hg)].
  - apply gallery_ok_inv in Hg as (_ & _ & Hall).
    apply elem_of_map_to_list, list_elem_of_lookup in Hb as [i Hi].
    destruct (Forall2_lookup_l _ _ _ _ _ Hall Hi) as (item & _ & Hitem).
    destruct (projects_is_Some _ _ k Hitem Hk) as [v Hv]. cbn in Hv. congruence.
  - by exists k', name', b'.
Qed.

Lemma gallery_missing_key_raises_witness :
  ∃ k' name' b',
    (gallery tt with_untitled).2 = inl (KeyError k') ∧
    k' ∈ display_keys ∧ blobs with_untitled !! name' = Some b' ∧
    metadata b' !! k' = None.
Proof.
  apply (gallery_missing_key_raises tt with_untitled "1.webm" untitled "title");
    [reflexivity | reflexivity | | reflexivity].
  unfold display_keys. rewrite !elem_of_cons. auto.
Defined.

Example gallery_untitled :
  (gallery tt with_untitled).2 = inl (KeyError "title").
Proof. vm_compute. reflexivity. Qed.

(** ** Edge cases and relations between runs *)




(** C6.  When the upload of ["clip.MP4"] with content type ["video/mp4"]
    returns, the container holds a new object under [<id>.mp4], with the
    lower-cased extension, whose content type is ["video/mp4"] as supplied
    and whose bytes are those uploaded. *)
Theorem upload_clip_mp4 (b : list byte) (w : World) :
  let r := add_file_and_metadata_to_blob_storage "clip.MP4" b "video/mp4" w in
  r.2 = inr tt →
  ∃ blob,
    blobs r.1 !! (next_uuid4 w +:+ "." +:+ "mp4") = Some blob ∧
    blobs w !! (next_uuid4 w +:+ "." +:+ "mp4") = None ∧
    content_type blob = "video/mp4" ∧
    data blob = b ∧
    metadata blob !! "original_file_name" = Some "clip.MP4".
Proof.
  intros r Hr.
  destruct (upload_ok_inv "clip.MP4" b "video/mp4" w Hr) as (_ & _ & Hfree & Hblobs).
  eexists. split; [|split; [exact Hfree|]].
  - unfold r. rewrite Hblobs. apply lookup_insert_eq.
  - split; [reflexivity|]. split; [reflexivity|].
    cbn [metadata]. change (PyStr.strip "clip.MP4") with "clip.MP4".
    unfold upload_metadata. apply lookup_insert_eq.
Qed.

Lemma upload_clip_mp4_witness :
  let r := add_file_and_metadata_to_blob_storage "clip.MP4" [x00; x01] "video/mp4" healthy in
  ∃ blob,
    blobs r.1 !! (next_uuid4 healthy +:+ "." +:+ "mp4") = Some blob ∧
    blobs healthy !! (next_uuid4 healthy +:+ "." +:+ "mp4") = None ∧
    content_type blob = "video/mp4" ∧
    data blob = [x00; x01] ∧
    metadata blob !! "original_file_name" = Some "clip.MP4".
Proof.
  apply (upload_clip_mp4 [x00; x01] healthy). vm_compute. reflexivity.
Defined.

(** C7.  Two uploads of the same file name, contents and content type, one
    after the other, that both return have generated two distinct ids and
    left two distinct objects in the container, each with the uploaded
    bytes: the container has grown by two.  (A second upload that drew the
    id of the first would not return: the store refuses to write over an
    existing name.) *)
Theorem upload_twice_two_objects (file_name : string) (file_contents : list byte)
    (file_content_type : string) (w : World) :
  let r1 := add_file_and_metadata_to_blob_storage file_name file_contents file_content_type w in
  let r2 := add_file_and_metadata_to_blob_storage file_name file_contents file_content_type r1.1 in
  let ext := PyStr.lower (Spec.suffix_after_last "." file_name) in
  let id1 := next_uuid4 w in
  let id2 := next_uuid4 r1.1 in
  r1.2 = inr tt →
  r2.2 = inr tt →
  id1 ≠ id2 ∧
  id1 +:+ "." +:+ ext ≠ id2 +:+ "." +:+ ext ∧
  (∃ b1 b2,
     blobs r2.1 !! (id1 +:+ "." +:+ ext) = Some b1 ∧
     blobs r2.1 !! (id2 +:+ "." +:+ ext) = Some b2 ∧
     metadata b1 !! "uuid" = Some id1 ∧ metadata b2 !! "uuid" = Some id2 ∧
     data b1 = file_contents ∧ data b2 = file_contents) ∧
  size (blobs r2.1) = S (S (size (blobs w))).
Proof.
  intros r1 r2 ext id1 id2 H1 H2.
  destruct (upload_ok_inv _ _ _ _ H1) as (_ & _ & Hfree1 & Hb1).
  destruct (upload_ok_inv _ _ _ _ H2) as (_ & _ & Hfree2 & Hb2).
  fold r1 in Hb1, Hfree2, Hb2. fold r2 in Hb2. fold ext id1 in Hfree1, Hb1.
  fold ext id2 in Hfree2, Hb2.
  assert (Hne : id1 ≠ id2).
  { intros Heq. rewrite Hb1, <-Heq, lookup_insert_eq in Hfree2. discriminate. }
  assert (Hkeys : id1 +:+ "." +:+ ext ≠ id2 +:+ "." +:+ ext).
  { intros Heq. rewrite Hb1, <-Heq, lookup_insert_eq in Hfree2. discriminate. }
  split; [exact Hne|]. split; [exact Hkeys|]. split.
  - do 2 eexists. rewrite Hb2, Hb1.
    split; [by rewrite lookup_insert_ne, lookup_insert_eq|].
    split; [by rewrite lookup_insert_eq|].
    unfold upload_metadata. cbn. split; [by simplify_map_eq|]. split; [by simplify_map_eq|].
    done.
  - rewrite Hb2, map_size_insert_None by exact Hfree2.
    by rewrite Hb1, map_size_insert_None.
Qed.

Lemma upload_twice_two_objects_witness :
  let r1 := add_file_and_metadata_to_blob_storage "clip.MP4" [x2a] "video/mp4" healthy in
  let r2 := add_file_and_metadata_to_blob_storage "clip.MP4" [x2a] "video/mp4" r1.1 in
  next_uuid4 healthy ≠ next_uuid4 r1.1 ∧ size (blobs r2.1) = 2%nat.
Proof.
  intros r1 r2.
  destruct (upload_twice_two_objects "clip.MP4" [x2a] "video/mp4" healthy)
    as (Hne & _ & _ & Hsize); [vm_compute; reflexivity | vm_compute; reflexivity |].
  split; [exact Hne | exact Hsize].
Defined.




(** C9.  The clients are not released on the paths that raise.  An upload
    that meets a store answering 503 raises and leaves its blob client open;
    a listing that meets a blob without [title] raises and leaves both its
    clients open. *)
Theorem failed_handlers_leave_clients_open :
  let up := add_file_and_metadata_to_blob_storage "clip.MP4" [] "video/mp4" unavailable in
  let ls := gallery tt with_untitled in
  open_clients unavailable = ∅ ∧
  up.2 = inl (HttpResponseError 503) ∧ open_clients up.1 = {[0%nat]} ∧
  open_clients with_untitled = ∅ ∧
  ls.2 = inl (KeyError "title") ∧ open_clients ls.1 = {[0%nat; 1%nat]}.
Proof. vm_compute. repeat split; reflexivity. Qed.

(** C10.  When an upload returns, the object it stored has under the
    metadata key [uuid] the id that its key starts with, the key being that
    id, a [.] and the extension; and every later listing of that container
    that returns has a record whose [uuid] is that id, so that the record's
    [uuid] followed by [.] and the extension is the key of the stored
    object. *)
Theorem upload_uuid_is_key_stem (file_name : string) (file_contents : list byte)
    (file_content_type : string) (w : World) :
  let r := add_file_and_metadata_to_blob_storage file_name file_contents file_content_type w in
  let id := next_uuid4 w in
  let ext := PyStr.lower (Spec.suffix_after_last "." file_name) in
  r.2 = inr tt →
  ∃ b,
    blobs r.1 !! (id +:+ "." +:+ ext) = Some b ∧
    blobs w !! (id +:+ "." +:+ ext) = None ∧
    metadata b !! "uuid" = Some id ∧
    ∀ (Req : Type) (request : Req) (resp : TemplateResponse Req),
      (gallery request r.1).2 = inr resp →
      ∃ item, item ∈ context_blobs resp ∧ uuid item = id ∧
              blobs r.1 !! (uuid item +:+ "." +:+ ext) = Some b.
Proof.
  intros r id ext Hr.
  destruct (upload_ok_inv _ _ _ _ Hr) as (_ & _ & Hfree & Hblobs).
  fold r id ext in Hfree, Hblobs.
  eexists. split; [rewrite Hblobs; apply lookup_insert_eq|].
  split; [exact Hfree|]. split; [by cbn; unfold upload_metadata; simplify_map_eq|].
  intros Req request resp Hg.
  apply gallery_ok_inv in Hg as (_ & _ & Hall).
  assert (Hin : blobs r.1 !! (id +:+ "." +:+ ext) =
                Some {| data := file_contents;
                        metadata := upload_metadata (PyStr.strip file_name) id;
                        content_type := file_content_type |})
    by (rewrite Hblobs; apply lookup_insert_eq).
  apply elem_of_map_to_list, list_elem_of_lookup in Hin as [i Hi].
  destruct (Forall2_lookup_l _ _ _ _ _ Hall Hi) as (item & Hitem & Hu & _).
  cbn in Hu. unfold upload_metadata in Hu. simplify_map_eq.
  exists item. split; [by eapply list_elem_of_lookup_2|]. split; [done|].
  rewrite <-Hu, Hblobs. apply lookup_insert_eq.
Qed.

Lemma upload_uuid_is_key_stem_witness :
  let r := add_file_and_metadata_to_blob_storage "clip.MP4" [] "video/mp4" healthy in
  ∃ b,
    blobs r.1 !! (next_uuid4 healthy +:+ ".mp4") = Some b ∧
    blobs healthy !! (next_uuid4 healthy +:+ ".mp4") = None ∧
    metadata b !! "uuid" = Some (next_uuid4 healthy) ∧
    ∀ (Req : Type) (request : Req) (resp : TemplateResponse Req),
      (gallery request r.1).2 = inr resp →
      ∃ item, item ∈ context_blobs resp ∧ uuid item = next_uuid4 healthy ∧
              blobs r.1 !! (uuid item +:+ ".mp4") = Some b.
Proof.
  apply (upload_uuid_is_key_stem "clip.MP4" [] "video/mp4" healthy).
  vm_compute. reflexivity.
Defined.

Example gallery_after_upload :
  let r := add_file_and_metadata_to_blob_storage "clip.MP4" [] "video/mp4" healthy in
  (gallery tt r.1).2 =
  inr {| template := "gallery.html"; context_request := tt;
         context_blobs :=
           [ {| uuid := next_uuid4 healthy;
                image_url := "https://bootsnipp.com/bootstrap-builder/libs/builder/icons/image.svg";
                author := "Dummy User"; title := "Dummy title"; badge := "dummy badge" |} ] |}.
Proof. vm_compute. reflexivity. Qed.

(** * Further properties of the handlers *)

(** ** The upload handler *)

Section upload_more.
Variables (file_name : string) (file_contents : list byte) (file_content_type : string).
Variable w : World.
Let r := add_file_and_metadata_to_blob_storage file_name file_contents file_content_type w.
Let key : string :=
  next_uuid4 w +:+ "." +:+ PyStr.lower (Spec.suffix_after_last "." file_name).

(** X1.  Whatever its outcome, an upload leaves every blob that was in the
    container where it was and as it was: nothing is overwritten, nothing
    removed. *)
Theorem upload_never_overwrites (name : string) (b : Blob) :
  blobs w !! name = Some b → blobs r.1 !! name = Some b.
Proof.
  intros Hb. destruct (r.2) as [e|[]] eqn:Hr.
  - apply upload_error_inv in Hr as [Hsame _]. fold r in Hsame. by rewrite Hsame.
  - apply upload_ok_inv in Hr as (_ & _ & Hfree & Hblobs). fold r in Hblobs.
    rewrite Hblobs, lookup_insert_ne; [done|]. intros <-. congruence.
Qed.

(** X3.  An upload keeps the open clients below [next_client], and one that
    returns leaves open exactly the clients that were open before. *)
Theorem upload_keeps_clients_fresh :
  clients_fresh w →
  clients_fresh r.1 ∧ (r.2 = inr tt → open_clients r.1 = open_clients w).
Proof.
  intros Hfresh.
  destruct (upload_world file_name file_contents file_content_type w) as (_ & _ & _ & Hnext).
  fold r in Hnext. split.
  - intros h. rewrite Hnext. destruct (r.2) as [e|[]] eqn:Hr.
    + apply upload_error_inv in Hr as [_ Hopen]. fold r in Hopen. rewrite Hopen.
      rewrite elem_of_union, elem_of_singleton. intros [->|Hh]; [lia|].
      apply Hfresh in Hh. lia.
    + apply upload_ok_clients in Hr. fold r in Hr. rewrite Hr.
      rewrite elem_of_difference, elem_of_union, elem_of_singleton.
      intros [[->|Hh] _]; [lia|]. apply Hfresh in Hh. lia.
  - intros Hr. apply upload_ok_clients in Hr. fold r in Hr. rewrite Hr.
    apply set_eq. intros h.
    rewrite elem_of_difference, elem_of_union, elem_of_singleton.
    split; [by intros [[->|?] ?]|].
    intros Hh. split; [by right|]. intros ->. apply Hfresh in Hh. lia.
Qed.

Lemma upload_listable : listable w → listable r.1.
Proof.
  intros Hl name b k. destruct (r.2) as [e|[]] eqn:Hr.
  - apply upload_error_inv in Hr as [Hsame _]. fold r in Hsame. rewrite Hsame. apply Hl.
  - apply upload_ok_inv in Hr as (_ & _ & _ & Hblobs). fold r key in Hblobs.
    rewrite Hblobs, lookup_insert. case_decide as Hname; [|apply Hl].
    intros [= <-]. cbn [metadata]. unfold upload_metadata, display_keys.
    rewrite !elem_of_cons, elem_of_nil.
    intros [->|[->|[->|[->|[]]]]]; by simplify_map_eq.
Qed.

(** X2.  An upload keeps a container listable, whatever its outcome: the
    object it writes has the four keys the gallery reads. *)
Theorem upload_keeps_listable : listable w → listable r.1.
Proof. exact upload_listable. Qed.

(** Every blob of the container after an upload was there before or is as
    the handler writes them. *)
Lemma upload_written_by_upload :
  (∀ name b, blobs w !! name = Some b → written_by_upload name b) →
  ∀ name b, blobs r.1 !! name = Some b → written_by_upload name b.
Proof.
  intros Hw name b. destruct (r.2) as [e|[]] eqn:Hr.
  - apply upload_error_inv in Hr as [Hsame _]. fold r in Hsame. rewrite Hsame. apply Hw.
  - apply upload_ok_inv in Hr as (_ & _ & _ & Hblobs). fold r key in Hblobs.
    rewrite Hblobs, lookup_insert. case_decide as Hname; [|apply Hw].
    intros [= <-]. exists file_name, (next_uuid4 w).
    split; [apply str_uuid4_syntax|]. by split.
Qed.

Lemma upload_size : (size (blobs r.1) ≤ S (size (blobs w)))%nat.
Proof.
  destruct (r.2) as [e|[]] eqn:Hr.
  - apply upload_error_inv in Hr as [Hsame _]. fold r in Hsame. rewrite Hsame. lia.
  - apply upload_ok_inv in Hr as (_ & _ & Hfree & Hblobs). fold r key in Hblobs.
    rewrite Hblobs, map_size_insert_None by done. lia.
Qed.
End upload_more.

Lemma upload_never_overwrites_witness :
  blobs (add_file_and_metadata_to_blob_storage "7.webm" [x2a] "video/webm" with_talk).1
    !! "7.webm" = Some talk.
Proof.
  apply (upload_never_overwrites "7.webm" [x2a] "video/webm" with_talk "7.webm" talk).
  reflexivity.
Defined.

Lemma upload_keeps_clients_fresh_witness :
  let r := add_file_and_metadata_to_blob_storage "clip.MP4" [x00] "video/mp4" healthy in
  clients_fresh r.1 ∧ (r.2 = inr tt → open_clients r.1 = open_clients healthy).
Proof.
  apply (upload_keeps_clients_fresh "clip.MP4" [x00] "video/mp4" healthy).
  intros h Hh. by apply elem_of_empty in Hh.
Defined.

Lemma upload_keeps_listable_witness :
  listable (add_file_and_metadata_to_blob_storage "clip.MP4" [x00] "video/mp4" healthy).1.
Proof.
  apply (upload_keeps_listable "clip.MP4" [x00] "video/mp4" healthy).
  intros name b k Hb. change (blobs healthy) with (∅ : gmap string Blob) in Hb.
  by rewrite lookup_empty in Hb.
Defined.

(** ** The key of a stored object *)

Section lower_facts.
Import PyStr Spec.

Lemma lower_char_idemp c : lower_char (lower_char c) = lower_char c.
Proof. by destruct c as [[] [] [] [] [] [] [] []]. Qed.

Lemma lower_char_dot c : Ascii.eqb (lower_char c) "." = Ascii.eqb c ".".
Proof. by destruct c as [[] [] [] [] [] [] [] []]. Qed.

Lemma lower_idemp s : lower (lower s) = lower s.
Proof. induction s as [|c s IH]; cbn; [done|]. by rewrite lower_char_idemp, IH. Qed.

Lemma contains_dot_lower s : contains "." (lower s) = contains "." s.
Proof. induction s as [|c s IH]; cbn; [done|]. by rewrite lower_char_dot, IH. Qed.

Lemma suffix_after_last_app sep a b :
  contains sep b = false → suffix_after_last sep (a +:+ String sep b) = b.
Proof.
  intros Hb. induction a as [|c a IH].
  - change (suffix_after_last sep (String sep b) = b). cbn. by rewrite Hb, Ascii.eqb_refl.
  - change (suffix_after_last sep (String c (a +:+ String sep b)) = b). cbn [suffix_after_last].
    replace (contains sep (a +:+ String sep b)) with true; [done|].
    clear IH. induction a as [|d a IH].
    + change (true = contains sep (String sep b)). cbn. by rewrite Ascii.eqb_refl.
    + change (true = contains sep (String d (a +:+ String sep b))). cbn. by rewrite <-IH, orb_true_r.
Qed.
End lower_facts.

Section uuid_text.
Import PyUUID.

Lemma pat_ok_no_dot p c : pat_ok p c = true → Ascii.eqb c "." = false.
Proof. destruct p, c as [[] [] [] [] [] [] [] []]; done. Qed.

Lemma matches_no_dot ps s : matches ps s = true → PyStr.contains "." s = false.
Proof.
  revert s. induction ps as [|p ps IH]; intros [|c s]; cbn; try done.
  intros [Hp Hs]%andb_true_iff. by rewrite (pat_ok_no_dot p c Hp), (IH s Hs).
Qed.

Lemma next_uuid4_no_dot w : PyStr.contains "." (next_uuid4 w) = false.
Proof. apply (matches_no_dot uuid4_pattern), str_uuid4_syntax. Qed.

Lemma hex_digit_inj a b : a < 16 → b < 16 → hex_digit a = hex_digit b → a = b.
Proof.
  intros Ha Hb.
  destruct a as [|p]; [|do 4 (try destruct p as [p|p|]); try lia];
  (destruct b as [|q]; [|do 4 (try destruct q as [q|q|]); try lia]); by vm_compute.
Qed.

Lemma land_15_lt x : N.land x 15 < 16.
Proof. change 15 with (N.ones 4). rewrite N.land_ones. by apply N.mod_lt. Qed.

Lemma format_x_inj width n m acc acc' :
  length (list_ascii_of_string acc) = length (list_ascii_of_string acc') →
  format_x width n acc = format_x width m acc' →
  n mod 2 ^ (4 * N.of_nat width) = m mod 2 ^ (4 * N.of_nat width) ∧ acc = acc'.
Proof.
  revert n m acc acc'. induction width as [|width IH]; intros n m acc acc' Hlen; cbn [format_x].
  - intros ->. by rewrite !N.mod_1_r.
  - intros H. apply IH in H as [Hhi Hacc]; [|by cbn; rewrite Hlen].
    injection Hacc as Hlo ->. split; [|done].
    apply hex_digit_inj in Hlo; [|apply land_15_lt..].
    change 15 with (N.ones 4) in Hlo. rewrite !N.land_ones in Hlo.
    rewrite !N.shiftr_div_pow2 in Hhi.
    replace (4 * N.of_nat (S width)) with (4 + 4 * N.of_nat width) by lia.
    rewrite N.pow_add_r, !N.Div0.mod_mul_r. by rewrite Hlo, Hhi.
Qed.

Lemma String_inj a s b t : String a s = String b t → a = b ∧ s = t.
Proof. by intros [= -> ->]. Qed.

Lemma str_hex_inj u v : str u = str v → format_x 32 u "" = format_x 32 v "".
Proof.
  cbv [str format_x substring String.append]. intros H.
  repeat match type of H with
    | String _ _ = String _ _ => apply String_inj in H as [? H]
    end.
  repeat match goal with
    | E : hex_digit _ = hex_digit _ |- _ => rewrite E; clear E
    end.
  reflexivity.
Qed.

Lemma UUID_version4_lt r : UUID_version4 r < 2 ^ 128.
Proof.
  assert (UUID_version4 r = UUID_version4 r mod 2 ^ 128) as ->; [|by apply N.mod_lt].
  apply N.bits_inj. intros n. destruct (N.lt_ge_cases n 128) as [Hn|Hn].
  - by rewrite N.mod_pow2_bits_low.
  - rewrite N.mod_pow2_bits_high by done. unfold UUID_version4.
    rewrite N.lor_spec, N.ldiff_spec, N.lor_spec, N.ldiff_spec.
    rewrite N.mod_pow2_bits_high by done.
    rewrite (testbit_above (N.shiftl 32768 48) 128 n), (testbit_above (N.shiftl 4 76) 128 n)
      by (done || lia).
    done.
Qed.

Lemma str_UUID_version4_inj a b :
  str (UUID_version4 a) = str (UUID_version4 b) → UUID_version4 a = UUID_version4 b.
Proof.
  intros H. apply str_hex_inj, format_x_inj in H as [H _]; [|done].
  change (4 * N.of_nat 32) with 128 in H.
  by rewrite !N.mod_small in H by apply UUID_version4_lt.
Qed.
End uuid_text.

Section key_facts.
Import PyStr Spec.

Lemma matches_length ps s :
  PyUUID.matches ps s = true → String.length s = length ps.
Proof.
  revert s. induction ps as [|p ps IH]; intros [|c s]; cbn; try done.
  intros [_ Hs]%andb_true_iff. by rewrite (IH s Hs).
Qed.

Lemma append_inv_tail a b c :
  String.length a = String.length b → a +:+ c = b +:+ c → a = b.
Proof.
  revert b. induction a as [|x a IH]; intros [|y b]; cbn; try done.
  intros [= Hlen]. change (String x (a +:+ c) = String y (b +:+ c) → String x a = String y b).
  intros [= -> H]. by rewrite (IH b Hlen H).
Qed.

(** X4.  The extension read off a stored key, the way the handler reads it off a
    file name, is the extension the key was made with: the id holds no [.]
    and the extension is in lower case already. *)
Theorem stored_key_gives_back_extension (file_name : string) (w : World) :
  let extension := lower (suffix_after_last "." file_name) in
  let key := next_uuid4 w +:+ "." +:+ extension in
  last (split "." key) = Some extension ∧
  lower extension = extension ∧
  contains "." extension = false.
Proof.
  intros extension key.
  assert (Hfree : contains "." extension = false)
    by (unfold extension; rewrite contains_dot_lower; apply suffix_after_last_free).
  split; [|split; [apply lower_idemp|exact Hfree]].
  rewrite last_split. unfold key. f_equal. by apply suffix_after_last_app.
Qed.
End key_facts.

(** X5.  Two uploads of the same file, when the store answers both first writes,
    both keys are free and the two draws give different UUIDs, both return,
    with different ids. *)
Theorem uploads_with_distinct_ids_both_return (file_name : string)
    (file_contents : list byte) (file_content_type : string) (w : World) :
  let r1 := add_file_and_metadata_to_blob_storage file_name file_contents file_content_type w in
  let r2 := add_file_and_metadata_to_blob_storage file_name file_contents file_content_type r1.1 in
  let ext := PyStr.lower (Spec.suffix_after_last "." file_name) in
  let u1 := PyUUID.UUID_version4 (urandom w (draws w)) in
  let u2 := PyUUID.UUID_version4 (urandom w (S (draws w))) in
  header_safe (PyStr.strip file_name) = true →
  header_safe file_content_type = true →
  outage w (length (requests w)) = None →
  outage w (S (length (requests w))) = None →
  blobs w !! (PyUUID.str u1 +:+ "." +:+ ext) = None →
  blobs w !! (PyUUID.str u2 +:+ "." +:+ ext) = None →
  u1 ≠ u2 →
  r1.2 = inr tt ∧ r2.2 = inr tt ∧
  next_uuid4 w = PyUUID.str u1 ∧ next_uuid4 r1.1 = PyUUID.str u2 ∧
  PyUUID.str u1 ≠ PyUUID.str u2.
Proof.
  intros r1 r2 ext u1 u2 Hname Htype Hup1 Hup2 Hfree1 Hfree2 Hne.
  assert (Hstr : PyUUID.str u1 ≠ PyUUID.str u2)
    by (intros Heq; by apply Hne, str_UUID_version4_inj).
  assert (Hkeys : PyUUID.str u1 +:+ "." +:+ ext ≠ PyUUID.str u2 +:+ "." +:+ ext).
  { intros Heq. apply Hstr. apply (append_inv_tail _ _ ("." +:+ ext)); [|exact Heq].
    unfold u1, u2.
    by rewrite !(matches_length PyUUID.uuid4_pattern) by apply str_uuid4_syntax. }
  assert (Hid1 : next_uuid4 w = PyUUID.str u1) by reflexivity.
  destruct (upload_world file_name file_contents file_content_type w)
    as (Hd & Hu & Hout & _). fold r1 in Hd, Hu, Hout.
  assert (Hid2 : next_uuid4 r1.1 = PyUUID.str u2).
  { unfold next_uuid4, u2. rewrite Hd, Hu. reflexivity. }
  clearbody u1 u2.
  destruct (upload_returns file_name file_contents file_content_type w Hname Htype Hup1)
    as (H1 & Hb1 & Hreq1).
  { rewrite Hid1. exact Hfree1. }
  fold r1 in H1, Hb1, Hreq1. rewrite Hid1 in Hb1.
  split; [exact H1|]. split; [|split; [exact Hid1|split; [exact Hid2|exact Hstr]]].
  apply upload_returns; [exact Hname | exact Htype | |].
  - rewrite Hout, Hreq1. exact Hup2.
  - rewrite Hb1, Hid2, lookup_insert_ne; [exact Hfree2|exact Hkeys].
Qed.

Lemma uploads_with_distinct_ids_both_return_witness :
  let r1 := add_file_and_metadata_to_blob_storage "clip.MP4" [x2a] "video/mp4" healthy in
  let r2 := add_file_and_metadata_to_blob_storage "clip.MP4" [x2a] "video/mp4" r1.1 in
  r1.2 = inr tt ∧ r2.2 = inr tt.
Proof.
  intros r1 r2.
  destruct (uploads_with_distinct_ids_both_return "clip.MP4" [x2a] "video/mp4" healthy)
    as (H1 & H2 & _);
    [vm_compute; reflexivity.. | by vm_compute | split; [exact H1 | exact H2]].
Defined.

(** ** The gallery handler *)

Section gallery_more.
Context {Req : Type} (request : Req).
Variable w : World.

(** X6.  A listing writes nothing and draws no id, whatever its outcome. *)
Theorem gallery_reads_only :
  blobs (gallery request w).1 = blobs w ∧ draws (gallery request w).1 = draws w.
Proof. by destruct (gallery_world request w) as (? & ? & _). Qed.


(** X8.  A listing keeps the open clients below [next_client], and one that
    returns leaves open exactly the clients that were open before. *)
Theorem gallery_keeps_clients_fresh :
  clients_fresh w →
  clients_fresh (gallery request w).1 ∧
  (∀ resp, (gallery request w).2 = inr resp →
           open_clients (gallery request w).1 = open_clients w).
Proof.
  intros Hfresh.
  assert (Hopen : ∀ h, h ∈ ({[S (next_client w)]} ∪ ({[next_client w]} ∪ open_clients w))
                       → (h < S (S (next_client w)))%nat).
  { intros h. rewrite !elem_of_union, !elem_of_singleton.
    intros [->|[->|Hh]]; [lia..|]. apply Hfresh in Hh. lia. }
  destruct (gallery_cases request w) as (k & _ & _ & Hlast).
  destruct (outage w (k + length (requests w))) as [e|].
  - destruct Hlast as [_ ->]. split; [exact Hopen | done].
  - destruct Hlast as [(items & _ & ->) | (key & blob & _ & _ & _ & ->)].
    + split.
      * intros h. cbn. rewrite !elem_of_difference. intros [[Hh _] _]. by apply Hopen.
      * intros _ _. cbn. apply set_eq. intros h.
        rewrite !elem_of_difference, !elem_of_union, !elem_of_singleton.
        split; [by intros [[[->|[->|?]] ?] ?]|].
        intros Hh. pose proof (Hfresh h Hh). repeat split; [by auto | lia..].
    + split; [exact Hopen | done].
Qed.
End gallery_more.


Lemma gallery_keeps_clients_fresh_witness :
  clients_fresh (gallery tt with_talk).1 ∧
  (∀ resp, (gallery tt with_talk).2 = inr resp →
           open_clients (gallery tt with_talk).1 = open_clients with_talk).
Proof.
  apply (gallery_keeps_clients_fresh tt with_talk).
  intros h Hh. by apply elem_of_empty in Hh.
Defined.

(** X9.  The [KeyError] of one blob names the first of [uuid], [author], [title],
    [badge] that its metadata lacks. *)
Theorem gallery_item_names_first_missing (meta : gmap string string) (k : string) (w : World) :
  first_missing meta display_keys = Some k →
  gallery_item meta w = (w, inl (KeyError k)).
Proof.
  unfold gallery_item, getitem, display_keys, mbind, M_bind, mret, M_ret, raise.
  cbn [first_missing].
  destruct (meta !! "uuid"); [|by intros [= <-]]. cbn.
  destruct (meta !! "author"); [|by intros [= <-]]. cbn.
  destruct (meta !! "title"); [|by intros [= <-]]. cbn.
  destruct (meta !! "badge"); [done|by intros [= <-]].
Qed.

Lemma gallery_item_names_first_missing_witness :
  gallery_item {["title" := "t"]} healthy = (healthy, inl (KeyError "uuid")).
Proof.
  apply (gallery_item_names_first_missing {["title" := "t"]} "uuid" healthy).
  reflexivity.
Defined.

(** ** Uploads followed by a listing *)

Lemma listable_gallery_returns {Req : Type} (request : Req) (w : World) :
  listable w → outage w (length (requests w)) = None →
  ∃ items,
    (gallery request w).2 =
      inr {| template := "gallery.html"; context_request := request;
             context_blobs := items |} ∧
    length items = size (blobs w).
Proof.
  intros Hl Hup.
  destruct (gallery_answered request w Hup)
    as [[[t rq items] Hg] | (k & name & b & Hk & Hb & Hnone & _)].
  - pose proof (gallery_ok_inv request w _ Hg) as (Ht & Hrq & Hall). cbn in *. subst.
    exists items. split; [done|].
    apply Forall2_length in Hall. by rewrite <-Hall, length_map_to_list.
  - destruct (Hl name b k Hb Hk) as [v Hv]. congruence.
Qed.

(** X10.  After an upload into a listable container that has returned, a
    listing that the store answers shows one record more than
    there were blobs. *)
Theorem gallery_after_upload_one_more {Req : Type} (request : Req) (file_name : string)
    (file_contents : list byte) (file_content_type : string) (w : World) :
  let r := add_file_and_metadata_to_blob_storage file_name file_contents file_content_type w in
  listable w →
  r.2 = inr tt →
  outage r.1 (length (requests r.1)) = None →
  ∃ items,
    (gallery request r.1).2 =
      inr {| template := "gallery.html"; context_request := request;
             context_blobs := items |} ∧
    length items = S (size (blobs w)).
Proof.
  intros r Hl Hr Hup.
  destruct (listable_gallery_returns request r.1) as (items & Hg & Hlen);
    [by apply upload_listable | exact Hup |].
  exists items. split; [exact Hg|]. rewrite Hlen.
  apply upload_ok_inv in Hr as (_ & _ & Hfree & Hblobs). fold r in Hblobs.
  rewrite Hblobs. by apply map_size_insert_None.
Qed.

Lemma gallery_after_upload_one_more_witness :
  let r := add_file_and_metadata_to_blob_storage "clip.MP4" [] "video/mp4" with_talk in
  ∃ items,
    (gallery tt r.1).2 =
      inr {| template := "gallery.html"; context_request := tt;
             context_blobs := items |} ∧
    length items = S (size (blobs with_talk)).
Proof.
  apply (gallery_after_upload_one_more tt "clip.MP4" [] "video/mp4" with_talk);
    [|vm_compute; reflexivity..].
  intros name b k Hb Hk.
  change (blobs with_talk) with ({["7.webm" := talk]} : gmap string Blob) in Hb.
  apply lookup_singleton_Some in Hb as [_ <-].
  unfold display_keys in Hk. rewrite !elem_of_cons, elem_of_nil in Hk.
  destruct Hk as [->|[->|[->|[->|[]]]]]; vm_compute; eauto.
Defined.

Lemma uploads_written (files : list (string * list byte * string))
    (w : World) (name : string) (b : Blob) :
  blobs w = ∅ →
  blobs (uploads files w) !! name = Some b →
  written_by_upload name b.
Proof.
  intros Hempty.
  assert (Hw : ∀ name b, blobs w !! name = Some b → written_by_upload name b)
    by (intros ? ?; by rewrite Hempty, lookup_empty).
  clear Hempty. revert w Hw name b.
  induction files as [|[[file_name file_contents] file_content_type] files IH];
    intros w Hw; [exact Hw|].
  cbn [uploads]. apply IH. by apply upload_written_by_upload.
Qed.

(** X11.  Every blob of a container that was empty and has seen only uploads
    is as the handler writes them: its name is a version 4 UUID, a [.] and a
    lower-cased extension, and its metadata is that of an upload. *)
Theorem uploads_only_write_uuid_keys (files : list (string * list byte * string))
    (w : World) (name : string) (b : Blob) :
  blobs w = ∅ →
  blobs (uploads files w) !! name = Some b →
  written_by_upload name b.
Proof. apply uploads_written. Qed.

Lemma uploads_only_write_uuid_keys_witness :
  written_by_upload (next_uuid4 healthy +:+ ".mp4")
    {| data := [x00]; metadata := upload_metadata "a.MP4" (next_uuid4 healthy);
       content_type := "video/mp4" |}.
Proof.
  apply (uploads_only_write_uuid_keys [(" a.MP4", [x00], "video/mp4")] healthy);
    [reflexivity | vm_compute; reflexivity].
Defined.

Lemma uploads_size files w :
  (size (blobs (uploads files w)) ≤ size (blobs w) + length files)%nat.
Proof.
  revert w. induction files as [|[[file_name file_contents] file_content_type] files IH];
    intros w; cbn [uploads length]; [lia|].
  pose proof (IH (add_file_and_metadata_to_blob_storage file_name file_contents
                    file_content_type w).1).
  pose proof (upload_size file_name file_contents file_content_type w). lia.
Qed.

(** X12.  A listing of a container that was empty and has seen only uploads
    never stops at a missing key: when the store answers it, it returns, with
    at most one record for each upload, each with the id of a version 4 UUID
    and the three fixed values. *)
Theorem gallery_after_uploads_returns {Req : Type} (request : Req)
    (files : list (string * list byte * string)) (w : World) :
  let w' := uploads files w in
  blobs w = ∅ →
  outage w' (length (requests w')) = None →
  ∃ items,
    (gallery request w').2 =
      inr {| template := "gallery.html"; context_request := request;
             context_blobs := items |} ∧
    (length items ≤ length files)%nat ∧
    Forall (λ item, PyUUID.is_uuid4 (uuid item) = true ∧
                    author item = "Dummy User" ∧ title item = "Dummy title" ∧
                    badge item = "dummy badge") items.
Proof.
  intros w' Hempty Hup.
  pose proof (uploads_written files w) as Hw. fold w' in Hw.
  destruct (gallery_answered request w' Hup)
    as [[[t rq items] Hg] | (k & name & b & Hk & Hb & Hnone & _)].
  - pose proof (gallery_ok_inv request w' _ Hg) as (Ht & Hrq & Hall). cbn in *. subst.
    exists items. split; [done|]. split.
    + apply Forall2_length in Hall. rewrite <-Hall, length_map_to_list.
      pose proof (uploads_size files w) as Hsize. fold w' in Hsize.
      rewrite Hempty, map_size_empty in Hsize. lia.
    + apply Forall_forall. intros item [i Hi]%list_elem_of_lookup.
      destruct (Forall2_lookup_r _ _ _ _ _ Hall Hi)
        as ([name b] & Hnb & Hu & Ha & Ht & Hb & _).
      apply list_elem_of_lookup_2, elem_of_map_to_list in Hnb.
      destruct (Hw name b Hempty Hnb) as (fn & id & Hid & _ & Hmeta).
      cbn [snd] in Hu, Ha, Ht, Hb. rewrite Hmeta in Hu, Ha, Ht, Hb.
      unfold upload_metadata in *. by simplify_map_eq.
  - exfalso. destruct (Hw name b Hempty Hb) as (fn & id & _ & _ & Hmeta).
    rewrite Hmeta in Hnone. revert Hk Hnone. unfold display_keys, upload_metadata.
    rewrite !elem_of_cons, elem_of_nil.
    intros [->|[->|[->|[->|[]]]]]; by simplify_map_eq.
Qed.

Lemma gallery_after_uploads_returns_witness :
  let w' := uploads [("a.MP4", [x00], "video/mp4"); ("b", [], "video/webm")] healthy in
  ∃ items,
    (gallery tt w').2 =
      inr {| template := "gallery.html"; context_request := tt;
             context_blobs := items |} ∧
    (length items ≤ 2)%nat ∧
    Forall (λ item, PyUUID.is_uuid4 (uuid item) = true ∧
                    author item = "Dummy User" ∧ title item = "Dummy title" ∧
                    badge item = "dummy badge") items.
Proof.
  apply (gallery_after_uploads_returns tt
           [("a.MP4", [x00], "video/mp4"); ("b", [], "video/webm")] healthy);
    [reflexivity | vm_compute; reflexivity].
Defined.

(** ** The upload route *)

(** X13.  A form without the field [video_recording], or with a plain string
    under it, makes the route raise before anything happens: no id is drawn,
    no client is made, nothing is sent. *)
Theorem upload_completed_bad_form (request : HttpRequest) (w : World) :
  (∀ f, form request !! "video_recording" ≠ Some (FormFile f)) →
  (upload_completed request w).1 = w ∧
  ((form request !! "video_recording" = None ∧
    (upload_completed request w).2 = inl (Exn (KeyError "video_recording"))) ∨
   (∃ s, form request !! "video_recording" = Some (FormText s) ∧
         (upload_completed request w).2 = inl (AttributeError "filename"))).
Proof.
  intros Hform. unfold upload_completed.
  destruct (form request !! "video_recording") as [[f|s]|]; [by destruct (Hform f)| |].
  - split; [done|]. right. by exists s.
  - split; [done|]. by left.
Qed.

Lemma upload_completed_bad_form_witness :
  let request := {| form := {["video_recording" := FormText "clip.MP4"]} |} in
  (upload_completed request healthy).1 = healthy ∧
  ((form request !! "video_recording" = None ∧
    (upload_completed request healthy).2 = inl (Exn (KeyError "video_recording"))) ∨
   (∃ s, form request !! "video_recording" = Some (FormText s) ∧
         (upload_completed request healthy).2 = inl (AttributeError "filename"))).
Proof.
  apply (upload_completed_bad_form
           {| form := {["video_recording" := FormText "clip.MP4"]} |} healthy).
  intros f. by vm_compute.
Defined.





(** ** The error pages *)

(** X16.  [error_template] never fails on its subscript; it shows the status code
    it was given, and the fallback message exactly for the codes other than
    404 and 500. *)
Theorem error_template_total {Req : Type} (request : Req) (exc : HTTPException) :
  ∃ page,
    error_template request exc = Some page ∧
    error_page_template page = "layout/error.html" ∧
    error_page_request page = request ∧
    error_code page = exc_status_code exc ∧
    (error_message page = "No message saved for this error." ↔
     exc_status_code exc ≠ 404%Z ∧ exc_status_code exc ≠ 500%Z).
Proof.
  unfold error_template, error_messages. destruct exc as [code]. cbn [exc_status_code].
  destruct (decide (code = 404%Z)) as [->|H404].
  { eexists. split; [reflexivity|]. cbn. repeat split; try done. by intros [? _]. }
  destruct (decide (code = 500%Z)) as [->|H500].
  { eexists. split; [reflexivity|]. cbn. repeat split; try done. by intros [_ ?]. }
  rewrite bool_decide_eq_false_2.
  - eexists. split; [reflexivity|]. cbn. done.
  - rewrite !lookup_insert_ne, lookup_empty by done. by intros [? ?].
Qed.

(** X17.  Every handler that [exception_handlers] registers shows, for the status
    code it is registered for, a message of its own, not the fallback. *)
Theorem exception_handlers_have_messages {Req : Type} (request : Req) (code : Z)
    (handler : Req → HTTPException → option (ErrorPage Req)) :
  exception_handlers !! code = Some handler →
  ∃ page,
    handler request {| exc_status_code := code |} = Some page ∧
    error_code page = code ∧
    error_messages !! code = Some (error_message page) ∧
    error_message page ≠ "No message saved for this error.".
Proof.
  unfold exception_handlers. intros H.
  destruct (decide (code = 404%Z)) as [->|H404].
  { rewrite lookup_insert_eq in H. injection H as <-. by eexists. }
  rewrite lookup_insert_ne in H by done.
  destruct (decide (code = 500%Z)) as [->|H500].
  { rewrite lookup_insert_eq in H. injection H as <-. by eexists. }
  by rewrite lookup_insert_ne, lookup_empty in H.
Qed.

Lemma exception_handlers_have_messages_witness :
  ∃ page,
    error_template tt {| exc_status_code := 404 |} = Some page ∧
    error_code page = 404%Z ∧
    error_messages !! 404%Z = Some (error_message page) ∧
    error_message page ≠ "No message saved for this error.".
Proof.
  apply (exception_handlers_have_messages tt 404 error_template). reflexivity.
Defined.

(** ** The middleware stack *)

Section split_join.
Import PyStr.
Variable sep : ascii.

(** Joining the pieces of a split with the separator gives the string back:
    [split] drops nothing but the separators and trims nothing. *)
Lemma join_split s : join sep (split sep s) = s.
Proof.
  induction s as [|c s IH]; [done|]. cbn [split].
  destruct (Ascii.eqb c sep) eqn:Hc.
  - apply Ascii.eqb_eq in Hc as ->.
    destruct (split_cons sep s) as (p & ps & Hs). rewrite Hs in *.
    change (join sep ("" :: p :: ps)) with (String sep (join sep (p :: ps))).
    by rewrite IH.
  - destruct (split_cons sep s) as (p & ps & Hs). rewrite Hs in *.
    destruct ps as [|q qs].
    + cbn in IH. cbn. by rewrite IH.
    + change (join sep (String c p :: q :: qs))
        with (String c (p +:+ String sep (join sep (q :: qs)))).
      change (join sep (p :: q :: qs)) with (p +:+ String sep (join sep (q :: qs))) in IH.
      by rewrite IH.
Qed.

Lemma split_pieces_free s : Forall (λ piece, contains sep piece = false) (split sep s).
Proof.
  induction s as [|c s IH]; [by repeat constructor|]. cbn [split].
  destruct (Ascii.eqb c sep) eqn:Hc; [by constructor|].
  destruct (split sep s) as [|p ps]; [by repeat constructor; cbn; rewrite Hc|].
  apply Forall_cons in IH as [Hp Hps]. constructor; [|done]. cbn. by rewrite Hc, Hp.
Qed.
End split_join.

(** X18.  The stack is built whenever [DEBUG] is set or [GITHUB_ALLOWED_USERS] is;
    it requires the GitHub login exactly when [DEBUG] is unset, whatever
    value [DEBUG] has when it is set, the empty string too.  The login
    middleware comes last, always with [require_auth] on. *)
Theorem middleware_auth_iff_no_debug (environ : gmap string string) :
  match middleware environ with
  | inl e =>
      e = AttributeError "split" ∧
      environ !! "DEBUG" = None ∧ environ !! "GITHUB_ALLOWED_USERS" = None
  | inr stack =>
      (environ !! "DEBUG" = None ↔
       ∃ id secret users, GitHubAuth id secret true users ∈ stack) ∧
      (is_Some (environ !! "DEBUG") ↔
       stack = [GZipMiddleware 500; ProxyHeadersMiddleware "*"]) ∧
      ∀ id secret required users,
        GitHubAuth id secret required users ∈ stack →
        required = true ∧ last stack = Some (GitHubAuth id secret required users)
  end.
Proof.
  unfold middleware. destruct (environ !! "DEBUG") as [d|].
  - split; [|split].
    + split; [done|]. intros (id & secret & users & Hin).
      rewrite !elem_of_cons, elem_of_nil in Hin. by destruct Hin as [|[|]].
    + split; [done|by eauto].
    + intros id secret required users Hin.
      rewrite !elem_of_cons, elem_of_nil in Hin. by destruct Hin as [|[|]].
  - destruct (environ !! "GITHUB_ALLOWED_USERS") as [users|]; [|done].
    split; [|split].
    + split; [|done]. intros _. eexists _, _, _. cbn.
      rewrite !elem_of_cons. right. right. by left.
    + split; [by intros [? ?]|done].
    + intros id secret required users' Hin. cbn in Hin.
      rewrite !elem_of_cons, elem_of_nil in Hin.
      destruct Hin as [|[|[[= -> -> -> ->]|[]]]]; done.
Qed.

(** X19.  The users the login admits are the pieces of [GITHUB_ALLOWED_USERS]
    between its commas, as they stand: there is at least one, none holds a
    comma, and joined with commas they give the variable back (blanks around
    a name are kept, and an empty variable admits the empty name). *)
Theorem middleware_allow_users (environ : gmap string string) (stack : list Middleware)
    (id secret : option string) (required : bool) (users : list string) :
  middleware environ = inr stack →
  GitHubAuth id secret required users ∈ stack →
  users ≠ [] ∧
  Forall (λ user, PyStr.contains "," user = false) users ∧
  environ !! "GITHUB_ALLOWED_USERS" = Some (join "," users) ∧
  id = environ !! "GITHUB_CLIENT_ID" ∧ secret = environ !! "GITHUB_CLIENT_SECRET".
Proof.
  unfold middleware. destruct (environ !! "DEBUG") as [d|].
  { intros [= <-] Hin. rewrite !elem_of_cons, elem_of_nil in Hin. by destruct Hin as [|[|]]. }
  destruct (environ !! "GITHUB_ALLOWED_USERS") as [allowed|]; [|done].
  intros [= <-] Hin. cbn in Hin. rewrite !elem_of_cons, elem_of_nil in Hin.
  destruct Hin as [|[|[[= -> -> -> ->]|[]]]]; [done..|].
  split; [|split; [apply split_pieces_free|split; [by rewrite join_split|done]]].
  by destruct (split_cons "," allowed) as (p & ps & ->).
Qed.

Lemma middleware_allow_users_witness :
  let environ : gmap string string :=
    {["GITHUB_ALLOWED_USERS" := "ada, grace"]} in
  [ "ada"; " grace" ] ≠ [] ∧
  Forall (λ user, PyStr.contains "," user = false) [ "ada"; " grace" ] ∧
  environ !! "GITHUB_ALLOWED_USERS" = Some (join "," [ "ada"; " grace" ]) ∧
  None = environ !! "GITHUB_CLIENT_ID" ∧ None = environ !! "GITHUB_CLIENT_SECRET".
Proof.
  intros environ.
  apply (middleware_allow_users environ
           [GZipMiddleware 500; ProxyHeadersMiddleware "*";
            GitHubAuth None None true [ "ada"; " grace" ]]
           None None true [ "ada"; " grace" ]); [reflexivity|].
  rewrite !elem_of_cons. right. right. by left.
Defined.
